(** * pdf_translator: the page pipeline of [src/main.py]

    A shallow embedding of [TranslateApi] (chunking and translation of a
    block's text, the per-page block loop, the per-document page loop and
    the final merge) together with the properties that the specification
    states about them.

    Python values are modelled as follows.
    - [str] is a list of Unicode code points ([N]), which is what Python's
      [len], slicing, [rsplit], [startswith] and string comparison see.
    - A raster (PIL image or numpy [H x W x 3] array of [uint8]) is a list
      of rows of RGB pixels.  numpy arrays are mutable objects: they live
      in a [heap] and are handled through references.
    - Exceptions are the [Raise] results of a state-and-error monad.
    - The one float expression that decides an exception, the width of a
      resized page, is computed in binary64 with primitive floats.
    - The neural models, the font renderer and the wrapping helper
      [fw_fill] (imported from [utils], which is not part of [main.py])
      are parameters, collected in the record [Models]. *)

From Stdlib Require Import String Ascii Bool Arith NArith ZArith QArith Lia.
From Stdlib Require Import Decimal DecimalNat List Sorted Permutation.
From Stdlib Require Import PrimFloat.
Import ListNotations.

Close Scope Q_scope.
Set Implicit Arguments.

(* ================================================================== *)
(** * Python strings *)

(** A Python [str]: a sequence of code points. *)
Definition str : Type := list N.

Module PyStr.

(** A string literal of the source whose characters are all ASCII. *)
Definition lit (s : string) : str :=
  map N_of_ascii (list_ascii_of_string s).

Fixpoint eqb (a b : str) : bool :=
  match a, b with
  | [], [] => true
  | x :: a', y :: b' => N.eqb x y && eqb a' b'
  | _, _ => false
  end.

(** [s.startswith(p)]. *)
Fixpoint startswith (s p : str) : bool :=
  match p, s with
  | [], _ => true
  | c :: p', d :: s' => N.eqb c d && startswith s' p'
  | _ :: _, [] => false
  end.

(** [sep.join(parts)]. *)
Fixpoint join (sep : str) (parts : list str) : str :=
  match parts with
  | [] => []
  | [p] => p
  | p :: rest => p ++ sep ++ join sep rest
  end.

(** [s < t]: Python orders strings lexicographically by code point. *)
Fixpoint ltb (a b : str) : bool :=
  match a, b with
  | _, [] => false
  | [], _ :: _ => true
  | x :: a', y :: b' => N.ltb x y || (N.eqb x y && ltb a' b')
  end.

Definition leb (a b : str) : bool := negb (ltb b a).

(** The position of the last occurrence of the character [c] in [s]
    ([s.rfind(c)]), if there is one. *)
Fixpoint rfind (c : N) (s : str) : option nat :=
  match s with
  | [] => None
  | d :: s' =>
      match rfind c s' with
      | Some k => Some (S k)
      | None => if N.eqb d c then Some 0 else None
      end
  end.

(** [s.rsplit(c, 1)[0]] for a one-character separator [c]: the part of [s]
    before the last [c], or [s] itself when [c] does not occur
    ([rsplit] then returns the one-element list [[s]]). *)
Definition rsplit1_head (c : N) (s : str) : str :=
  match rfind c s with
  | Some k => firstn k s
  | None => s
  end.

(** [str.lower()].  On a string of ASCII characters it maps [A-Z] to
    [a-z]; on any other string it is Python's Unicode lowering, which is
    the parameter [unicode_lower]. *)
Definition is_ascii (c : N) : bool := N.ltb c 128.

Definition ascii_lower (c : N) : N :=
  if N.leb 65 c && N.leb c 90 then (c + 32)%N else c.

Definition lower (unicode_lower : str -> str) (s : str) : str :=
  if forallb is_ascii s then map ascii_lower s else unicode_lower s.

End PyStr.

(* ================================================================== *)
(** * BlockTranslator: chunking in [__translate] *)

Definition PERIOD : N := 46.

(** One iteration of the loop [for i in range(int(len(text) / 512) + 1)]
    of [__translate]; the loop state is [(texts, rest)]:
<<
    truncated = rest[: (i + 1) * 512].rsplit(".", 1)[0]
    texts.append(truncated)
    rest = rest[len(truncated) :]
>> *)
Definition chunk_step (st : list str * str) (i : nat) : list str * str :=
  let '(texts, rest) := st in
  let truncated := PyStr.rsplit1_head PERIOD (firstn ((i + 1) * 512) rest) in
  (texts ++ [truncated], skipn (length truncated) rest).

(** The whole loop, from [texts = []] and [rest = text].  For the lengths
    a Python string can have, [int(len(text) / 512)] is the integer
    quotient. *)
Definition chunk_loop (text : str) : list str * str :=
  fold_left chunk_step (seq 0 (length text / 512 + 1)) ([], text).

(** The list [texts] that [__translate] hands to the translation model. *)
Definition chunks (text : str) : list str :=
  if 512 <? length text then fst (chunk_loop text) else [text].

(** What is left in [rest] when the loop ends; the source never reads
    it again. *)
Definition chunks_rest (text : str) : str :=
  if 512 <? length text then snd (chunk_loop text) else [].

(* ================================================================== *)
(** * Rasters, exceptions and the heap of numpy arrays *)

(** An RGB pixel of [uint8] channels. *)
Definition pixel : Type := (N * N * N)%type.

Definition WHITE : pixel := (255, 255, 255)%N.
Definition BLACK : pixel := (0, 0, 0)%N.

(** A raster: the rows of an [H x W x 3] array, or of a PIL image. *)
Definition grid : Type := list (list pixel).

Definition height (g : grid) : nat := length g.

Definition width (g : grid) : nat :=
  match g with
  | [] => 0
  | row :: _ => length row
  end.

(** The exceptions that the modelled code can raise itself. *)
Inductive exn : Type :=
| IndexError
| ValueError
| FileNotFoundError
| ZeroDivisionError.

Inductive result (A : Type) : Type :=
| Ok (a : A)
| Raise (e : exn).

Arguments Ok {A} a.
Arguments Raise {A} e.

(** numpy arrays are objects: a reference is an index into the heap. *)
Definition ref : Type := nat.
Definition heap : Type := list grid.

(** Computations that read and write the heap and may raise. *)
Definition Py (A : Type) : Type := heap -> result (A * heap).

Definition ret {A} (a : A) : Py A := fun h => Ok (a, h).

Definition bind {A B} (m : Py A) (k : A -> Py B) : Py B :=
  fun h =>
    match m h with
    | Ok (a, h') => k a h'
    | Raise e => Raise e
    end.

Definition raise {A} (e : exn) : Py A := fun _ => Raise e.

Definition lift {A} (r : result A) : Py A :=
  fun h =>
    match r with
    | Ok a => Ok (a, h)
    | Raise e => Raise e
    end.

Notation "x <- m ;; k" := (bind m (fun x => k))
  (at level 61, m at next level, right associativity).
Notation "' pat <- m ;; k" :=
  (bind m (fun x => match x with pat => k end))
  (at level 61, pat pattern, m at next level, right associativity).
Notation "m ;;; k" := (bind m (fun _ => k))
  (at level 61, right associativity).

(** A new array object holding [g]. *)
Definition alloc (g : grid) : Py ref :=
  fun h => Ok (length h, h ++ [g]).

(** The current contents of the array [r]. *)
Definition load (r : ref) : Py grid :=
  fun h => Ok (nth r h [], h).

Fixpoint update {A} (k : nat) (x : A) (l : list A) : list A :=
  match l, k with
  | [], _ => []
  | _ :: l', 0 => x :: l'
  | y :: l', S k' => y :: update k' x l'
  end.

(** Overwrite the array [r] in place. *)
Definition store (r : ref) (g : grid) : Py unit :=
  fun h => Ok (tt, update r g h).

(** ** numpy slice assignment *)

(** The bound [k] of a slice on an axis of length [n]: a negative bound
    counts from the end, and every bound is clipped to [0 .. n]. *)
Definition slice_bound (n : nat) (k : Z) : nat :=
  Z.to_nat (if (k <? 0)%Z then Z.max (k + Z.of_nat n) 0
            else Z.min k (Z.of_nat n)).

Fixpoint mapi_from {A B} (k : nat) (f : nat -> A -> B) (l : list A)
  : list B :=
  match l with
  | [] => []
  | x :: l' => f k x :: mapi_from (S k) f l'
  end.

Definition in_slice (lo hi k : nat) : bool := (lo <=? k) && (k <? hi).

(** [a[y0:y1, x0:x1] = blk] where [blk] has shape [(bh, bw, 3)].  The
    region selected in [a] has shape [(rh, rw, 3)]; numpy broadcasts
    [blk] to it, which needs each of [bh], [bw] to equal the region's
    extent or to be 1, and raises [ValueError] otherwise. *)
Definition setitem (a : grid) (y0 y1 x0 x1 : Z) (bh bw : nat) (blk : grid)
  : result grid :=
  let rs := slice_bound (height a) y0 in
  let re := slice_bound (height a) y1 in
  let cs := slice_bound (width a) x0 in
  let ce := slice_bound (width a) x1 in
  if ((bh =? re - rs) || (bh =? 1)) && ((bw =? ce - cs) || (bw =? 1)) then
    Ok (mapi_from 0
          (fun r row =>
             if in_slice rs re r then
               mapi_from 0
                 (fun c p =>
                    if in_slice cs ce c then
                      nth (if bw =? 1 then 0 else c - cs)
                          (nth (if bh =? 1 then 0 else r - rs) blk []) p
                    else p)
                 row
             else row)
          a)
  else Raise ValueError.

(* ================================================================== *)
(** * The external collaborators *)

(** A block of the layout result: the dictionary entries [type], [bbox]
    (as [(x0, y0, x1, y1)]) and [img] that the code reads. *)
Record block : Type := {
  type : str;
  bbox : Z * Z * Z * Z;
  img : grid
}.

(** Everything [main.py] calls but does not define.  Each is taken as a
    function that returns; a failure of a model is outside the model. *)
Record Models : Type := {
  confidence : Type;
  (** [self.layout_model(img)]: the blocks of a page, in model order. *)
  layout_model : grid -> list block;
  (** [self.ocr_model(block_img)[1]]: recognised lines with scores. *)
  ocr_model : grid -> list (str * confidence);
  (** tokenizer, [generate(max_length=512)] and [decode] in sequence. *)
  translate_model : str -> str;
  (** [utils.fw_fill(text, width)]. *)
  fw_fill : str -> Z -> str;
  (** The colour of canvas pixel [(row, col)] after [draw.text] has
      drawn the text in black at the origin of a white canvas. *)
  draw_text : str -> nat -> nat -> pixel;
  (** Python's [str.lower] on strings that are not pure ASCII. *)
  unicode_lower : str -> str
}.

(* ================================================================== *)
(** * [TranslateApi] *)

Section TranslateApi.

Variable models : Models.

Definition FONT_SIZE : Z := 36.

(** The prefix tested by [res.startswith(...)] in [__translate]:
    U+300C, U+3053, U+306E, U+7248. *)
Definition WEIRD_PREFIX : str := [12300; 12371; 12398; 29256]%N.

(** The second loop of [__translate]: translate each chunk, skip the
    results that start with [WEIRD_PREFIX], append the others. *)
Fixpoint translate_loop (texts translated_texts : list str) : list str :=
  match texts with
  | [] => translated_texts
  | t :: texts' =>
      let res := translate_model models t in
      if PyStr.startswith res WEIRD_PREFIX
      then translate_loop texts' translated_texts
      else translate_loop texts' (translated_texts ++ [res])
  end.

(** [__translate(text)]. *)
Definition __translate (text : str) : str :=
  concat (translate_loop (chunks text) []).

(** ** The heuristics of [__translate_one_page] *)

(** [re.sub(r"\n|\t|\[|\]|\/|\|", " ", text)]: every newline, tab,
    bracket, slash and pipe becomes a space. *)
Definition is_noise (c : N) : bool :=
  existsb (N.eqb c) [10; 9; 91; 93; 47; 124]%N.

Definition re_sub_noise (text : str) : str :=
  map (fun c => if is_noise c then 32%N else c) text.

Definition in_range (lo hi c : N) : bool := N.leb lo c && N.leb c hi.

(** The character class [\u3040-\u309F\u30A0-\u30FF\u4E00-\u9FFF\u3400-\u4DBF]. *)
Definition is_japanese (c : N) : bool :=
  in_range 12352 12447 c || in_range 12448 12543 c
  || in_range 19968 40959 c || in_range 13312 19903 c.

(** [re.findall(r"[^...]", translated_text)]: one match per character
    outside the class. *)
Definition findall_not_japanese (translated_text : str) : list N :=
  filter (fun c => negb (is_japanese c)) translated_text.

(** [len(re.findall(...)) > 0.8 * len(translated_text)].  The source
    computes the right-hand side in binary floating point; the double
    nearest to 0.8 exceeds 0.8 by a relative 2^-54, so for a text of
    fewer than 2^50 characters the rounded product lies on the same side
    of every integer as the exact [8/10 * len], which is what is compared
    here. *)
Definition quality_gate_rejects (translated_text : str) : bool :=
  negb (Qle_bool
          (inject_Z (Z.of_nat (length (findall_not_japanese translated_text))))
          ((8 # 10) * inject_Z (Z.of_nat (length translated_text)))).

(** [title.lower() == "references" or title.lower() == "reference"]. *)
Definition is_references_title (title : str) : bool :=
  PyStr.eqb (PyStr.lower (unicode_lower models) title) (PyStr.lit "references")
  || PyStr.eqb (PyStr.lower (unicode_lower models) title) (PyStr.lit "reference").

(** [np.array(new_block)] after [Image.new("RGB", (bw, bh), white)] and
    [draw.text((0, 0), processed_text, ...)]: an array of shape
    [(bh, bw, 3)].  [Image.new] raises [ValueError] on a negative size. *)
Definition render_block (processed_text : str) (bw bh : Z) : result grid :=
  if ((bw <? 0) || (bh <? 0))%Z then Raise ValueError
  else
    Ok (map (fun r =>
               map (fun c => draw_text models processed_text r c)
                   (seq 0 (Z.to_nat bw)))
            (seq 0 (Z.to_nat bh))).

(** ** The body of [for line in result] *)

(** One iteration on the block [line]; [page] is the array [img] that
    the page's blocks are drawn into, and the value returned is the
    local variable [reached_references] after the iteration. *)
Definition block_body (page : ref) (reached_references : bool)
           (line : block) : Py bool :=
  if negb (PyStr.eqb (type line) (PyStr.lit "title")) then
    let ocr_results := map fst (ocr_model models (img line)) in
    if 1 <? length ocr_results then
      let text := PyStr.join (PyStr.lit " ") ocr_results in
      let text := re_sub_noise text in
      let translated_text := __translate text in
      if quality_gate_rejects translated_text then
        ret reached_references                       (* continue *)
      else
        let '(x0, y0, x1, y1) := bbox line in
        let processed_text :=
          fw_fill models translated_text
                  (Z.quot (x1 - x0) (FONT_SIZE / 2) - 1)%Z in
        new_block <- lift (render_block processed_text
                                        (x1 - x0)%Z (y1 - y0)%Z) ;;
        a <- load page ;;
        a' <- lift (setitem a y0 y1 x0 x1
                            (Z.to_nat (y1 - y0)) (Z.to_nat (x1 - x0))
                            new_block) ;;
        store page a' ;;;
        ret reached_references
    else ret reached_references
  else
    match ocr_model models (img line) with
    | [] => raise IndexError                          (* [1][0] *)
    | (title, _) :: _ =>
        if is_references_title title then ret true
        else ret reached_references
    end.

(** [for line in result], from the local [reached_references] given. *)
Fixpoint block_loop (page : ref) (reached_references : bool)
         (layout_result : list block) : Py bool :=
  match layout_result with
  | [] => ret reached_references
  | line :: rest =>
      r <- block_body page reached_references line ;;
      block_loop page r rest
  end.

(** [__translate_one_page(image, reached_references)].  The two arrays
    returned are references: [img], which the loop has drawn into, and
    [original_img], a deep copy made before the loop. *)
Definition __translate_one_page (image : grid) (reached_references : bool)
  : Py (ref * ref * bool) :=
  img <- alloc image ;;                     (* np.array(image) *)
  a <- load img ;;
  original_img <- alloc a ;;                (* copy.deepcopy(img) *)
  a <- load img ;;
  r <- block_loop img reached_references (layout_model models a) ;;
  ret (img, original_img, r).

(** ** The page loop of [_translate_pdf] *)

(** A one-page file written by the loop. *)
Inductive page_file : Type :=
| SideBySide (original translated : grid)
    (** the two-panel figure saved by [plt.savefig] *)
| PassThrough (image : grid).
    (** the page image itself, converted, resized to height 1400, saved *)

(** The variables of the loop, and the files written so far (in the
    order of writing). *)
Record loop_state : Type := {
  pdf_files : list str;
  reached_references : bool;
  disk : list (str * page_file)
}.

(** [f"{i:03}"]: decimal, zero-padded to at least three digits. *)
Definition digit_char (d : nat) : N := (48 + N.of_nat d)%N.

Fixpoint uint_str (u : Decimal.uint) : str :=
  match u with
  | Decimal.Nil => []
  | Decimal.D0 u' => digit_char 0 :: uint_str u'
  | Decimal.D1 u' => digit_char 1 :: uint_str u'
  | Decimal.D2 u' => digit_char 2 :: uint_str u'
  | Decimal.D3 u' => digit_char 3 :: uint_str u'
  | Decimal.D4 u' => digit_char 4 :: uint_str u'
  | Decimal.D5 u' => digit_char 5 :: uint_str u'
  | Decimal.D6 u' => digit_char 6 :: uint_str u'
  | Decimal.D7 u' => digit_char 7 :: uint_str u'
  | Decimal.D8 u' => digit_char 8 :: uint_str u'
  | Decimal.D9 u' => digit_char 9 :: uint_str u'
  end.

Definition format_03 (i : nat) : str :=
  let s := uint_str (Nat.to_uint i) in
  repeat (digit_char 0) (3 - length s) ++ s.

(** [str(output_dir / f"{i:03}.pdf")]; [output_dir] stands for the
    directory as it is rendered in front of the file name, separator
    included. *)
Definition output_path (output_dir : str) (i : nat) : str :=
  output_dir ++ format_03 i ++ PyStr.lit ".pdf".

(** [float(n)] for a number of pixels [n]; the conversion is exact
    below 2^53. *)
Fixpoint float_of_positive (p : positive) : float :=
  match p with
  | xH => 1%float
  | xO p' => PrimFloat.mul 2%float (float_of_positive p')
  | xI p' =>
      PrimFloat.add (PrimFloat.mul 2%float (float_of_positive p')) 1%float
  end.

Definition float_of_nat (n : nat) : float :=
  match N.of_nat n with
  | N0 => 0%float
  | Npos p => float_of_positive p
  end.

(** Whether [int(1400 / image.size[1] * image.size[0])] is 0 for an
    image of height [h] and width [w], computed as Python computes it,
    in binary64: the quotient [1400 / h], rounded, times [w], rounded.
    The product is not negative, so its integer part is 0 exactly when
    it is below 1. *)
Definition resized_width_is_zero (h w : nat) : bool :=
  PrimFloat.ltb
    (PrimFloat.mul (PrimFloat.div 1400%float (float_of_nat h))
                   (float_of_nat w))
    1%float.

(** An array without any pixel. *)
Definition is_empty (g : grid) : bool := (height g =? 0) || (width g =? 0).

(** The body of the page loop.  [imshow] raises [ValueError] on an array
    without pixels (it takes the minimum of the array), the division
    raises [ZeroDivisionError] on an image without rows, and [resize]
    raises [ValueError] when the width computed for it is 0. *)
Definition page_body (output_dir : str) (st : loop_state)
           (i : nat) (image : grid) : Py loop_state :=
  let path := output_path output_dir i in
  st' <- (if negb (reached_references st) then
            '(img, original_img, r) <-
                __translate_one_page image (reached_references st) ;;
            o <- load original_img ;;
            t <- load img ;;
            if is_empty o || is_empty t then
              raise ValueError               (* ax[k].imshow(...) *)
            else
              ret {| pdf_files := pdf_files st;
                     reached_references := r;
                     disk := disk st ++ [(path, SideBySide o t)] |}
          else if height image =? 0 then
            raise ZeroDivisionError          (* 1400 / image.size[1] *)
          else if resized_width_is_zero (height image) (width image) then
            raise ValueError                 (* .resize((0, 1400)) *)
          else
            ret {| pdf_files := pdf_files st;
                   reached_references := reached_references st;
                   disk := disk st ++ [(path, PassThrough image)] |}) ;;
  ret {| pdf_files := pdf_files st' ++ [path];
         reached_references := reached_references st';
         disk := disk st' |}.

(** [for i, image in enumerate(pdf_images)], entered at index [i]. *)
Fixpoint page_loop (output_dir : str) (i : nat) (pdf_images : list grid)
         (st : loop_state) : Py loop_state :=
  match pdf_images with
  | [] => ret st
  | image :: rest =>
      st' <- page_body output_dir st i image ;;
      page_loop output_dir (S i) rest st'
  end.

Definition initial_state : loop_state :=
  {| pdf_files := []; reached_references := false; disk := [] |}.

(** ** [__merge_pdfs] *)

(** [sorted(pdf_files)]: a stable sort by Python's string order. *)
Fixpoint insert_sorted (x : str) (l : list str) : list str :=
  match l with
  | [] => [x]
  | y :: l' => if PyStr.ltb x y then x :: l else y :: insert_sorted x l'
  end.

Definition sorted (l : list str) : list str :=
  fold_left (fun acc x => insert_sorted x acc) l [].

(** The file at [path]: what was written there last. *)
Fixpoint read_file (files : list (str * page_file)) (path : str)
  : option page_file :=
  match files with
  | [] => None
  | (p, f) :: files' =>
      match read_file files' path with
      | Some f' => Some f'
      | None => if PyStr.eqb p path then Some f else None
      end
  end.

(** [for pdf_file in sorted(pdf_files): pdf_merger.append(pdf_file)];
    the result is the page sequence written to [translated.pdf]. *)
Fixpoint merge_loop (files : list (str * page_file)) (paths : list str)
         (merged : list page_file) : result (list page_file) :=
  match paths with
  | [] => Ok merged
  | p :: paths' =>
      match read_file files p with
      | Some f => merge_loop files paths' (merged ++ [f])
      | None => Raise FileNotFoundError
      end
  end.

Definition __merge_pdfs (files : list (str * page_file))
           (pdf_files : list str) : result (list page_file) :=
  merge_loop files (sorted pdf_files) [].

(** [_translate_pdf(pdf_images, output_dir)] after rasterisation: the
    final loop state and the merged document. *)
Definition _translate_pdf (pdf_images : list grid) (output_dir : str)
  : result (loop_state * list page_file) :=
  match page_loop output_dir 0 pdf_images initial_state [] with
  | Raise e => Raise e
  | Ok (st, _) =>
      match __merge_pdfs (disk st) (pdf_files st) with
      | Raise e => Raise e
      | Ok merged => Ok (st, merged)
      end
  end.

End TranslateApi.

(* ================================================================== *)
(** * A concrete world for examples *)

Module Example.

(** Pages and block crops are tiny rasters; the stand-in models read the
    code of the first pixel. *)
Definition tag (k : N) : grid := [[(k, 0, 0)%N; WHITE]; [BLACK; WHITE]].

Definition first_code (g : grid) : N :=
  match g with
  | ((k, _, _) :: _) :: _ => k
  | _ => 0%N
  end.

Definition body_crop : grid := tag 10.
Definition references_crop : grid := tag 11.
Definition blank_crop : grid := tag 12.
Definition weird_crop : grid := tag 13.
Definition mixed_crop : grid := tag 14.
Definition label_crop : grid := tag 15.
Definition latin_crop : grid := tag 16.

Definition body_block : block :=
  {| type := PyStr.lit "text"; bbox := (0, 0, 2, 1)%Z; img := body_crop |}.
Definition references_block : block :=
  {| type := PyStr.lit "title"; bbox := (0, 0, 2, 1)%Z;
     img := references_crop |}.
Definition blank_title_block : block :=
  {| type := PyStr.lit "title"; bbox := (0, 0, 2, 1)%Z; img := blank_crop |}.
Definition weird_block : block :=
  {| type := PyStr.lit "text"; bbox := (0, 1, 2, 2)%Z; img := weird_crop |}.
Definition mixed_block : block :=
  {| type := PyStr.lit "text"; bbox := (0, 1, 2, 2)%Z; img := mixed_crop |}.
Definition label_block : block :=
  {| type := PyStr.lit "text"; bbox := (0, 0, 2, 1)%Z; img := label_crop |}.
Definition latin_block : block :=
  {| type := PyStr.lit "text"; bbox := (0, 0, 2, 1)%Z; img := latin_crop |}.

(** Page 1 carries a body block, the title "References" and another body
    block; page 2 a body block; page 3 a body block and a title on which
    OCR finds nothing; any other page has no block. *)
Definition layout (page : grid) : list block :=
  match first_code page with
  | 1%N => [body_block; references_block; body_block]
  | 2%N => [body_block]
  | 3%N => [body_block; blank_title_block]
  | _ => []
  end.

Definition X : N := 88.
Definition Y : N := 89.

Definition ocr (crop : grid) : list (str * unit) :=
  match first_code crop with
  | 10%N => [(PyStr.lit "Hello world.", tt); (PyStr.lit "Second line.", tt)]
  | 11%N => [(PyStr.lit "References", tt)]
  | 13%N => [(PyStr.lit "X marks", tt); (PyStr.lit "the spot.", tt)]
  | 14%N => [(repeat X 300 ++ [PERIOD], tt); (repeat Y 300 ++ [PERIOD], tt)]
  | 15%N => [(PyStr.lit "42", tt)]
  | 16%N => [(PyStr.lit "Q one", tt); (PyStr.lit "Q two", tt)]
  | _ => []
  end.

(** The stand-in translator answers a text that starts with [X] by the
    artifact, one that starts with [Q] by an echo of the input, and any
    other text by two hiragana. *)
Definition translate (t : str) : str :=
  match t with
  | 88%N :: _ => [12300; 12371; 12398; 29256; 12301]%N
  | 81%N :: _ => t
  | _ => [12354; 12356]%N
  end.

Definition draw (text : str) (r c : nat) : pixel :=
  match text with
  | [] => WHITE
  | _ => if Nat.even (r + c) then WHITE else BLACK
  end.

Definition models : Models :=
  {| confidence := unit;
     layout_model := layout;
     ocr_model := ocr;
     translate_model := translate;
     fw_fill := fun text _ => text;
     draw_text := draw;
     unicode_lower := fun s => s |}.

Definition output_dir : str := PyStr.lit "/tmp/out/".

(** Page [k] of a long document without any block: a one-pixel raster
    that encodes [k]. *)
Definition numbered_page (k : nat) : grid :=
  [[(100 + N.of_nat (k / 100), N.of_nat (k mod 100), 0)%N]].

Definition numbered_pages (n : nat) : list grid :=
  map numbered_page (seq 0 n).

End Example.

(* ================================================================== *)
(** * Vocabulary of the statements *)

(** The heap in which a computation ends, or the exception it raises. *)
Definition heap_of {A} (r : result (A * heap)) : result heap :=
  match r with
  | Ok (_, h) => Ok h
  | Raise e => Raise e
  end.

(** The files that [page_loop] writes for pages it passes through. *)
Fixpoint pass_through_files (output_dir : str) (i : nat)
         (images : list grid) : list (str * page_file) :=
  match images with
  | [] => []
  | image :: rest =>
      (output_path output_dir i, PassThrough image)
        :: pass_through_files output_dir (S i) rest
  end.

(** Some title block of the page has, as its first recognised line, a
    text whose lower-case form is "references" or "reference". *)
Definition has_references_title (M : Models) (blocks : list block) : Prop :=
  exists line title c rest,
    In line blocks
    /\ type line = PyStr.lit "title"
    /\ ocr_model M (img line) = (title, c) :: rest
    /\ is_references_title M title = true.

(** The target script: Hiragana, Katakana, CJK Unified Ideographs and
    CJK Unified Ideographs Extension A. *)
Definition target_script (c : N) : Prop :=
  (0x3040 <= c <= 0x309F \/ 0x30A0 <= c <= 0x30FF
   \/ 0x4E00 <= c <= 0x9FFF \/ 0x3400 <= c <= 0x4DBF)%N.

(** The text that [block_body] hands to the gate for a body block. *)
Definition translated_text_of (M : Models) (line : block) : str :=
  __translate M
    (re_sub_noise
       (PyStr.join (PyStr.lit " ") (map fst (ocr_model M (img line))))).

(** "Not after": the order in which [sorted] leaves its result. *)
Definition not_after (a b : str) : Prop := PyStr.ltb b a = false.

(** Strictly before. *)
Definition before (a b : str) : Prop := PyStr.ltb a b = true.


(** The file name of page [i] without the directory. *)
Definition file_name (i : nat) : str := format_03 i ++ PyStr.lit ".pdf".

(** A title block whose first recognised line reads "references" or
    "reference" up to case. *)
Definition is_references_block (M : Models) (line : block) : bool :=
  PyStr.eqb (type line) (PyStr.lit "title")
  && match ocr_model M (img line) with
     | [] => false
     | (title, _) :: _ => is_references_title M title
     end.

(** The pixel in row [r] and column [c] of a raster, if there is one. *)
Definition pixel_at (g : grid) (r c : nat) : option pixel :=
  nth_error (nth r g []) c.

(** Whether the slice [[y0:y1, x0:x1]] of the raster [g] selects the
    position [(r, c)]. *)
Definition in_bbox (g : grid) (bb : Z * Z * Z * Z) (r c : nat) : bool :=
  let '(x0, y0, x1, y1) := bb in
  in_slice (slice_bound (height g) y0) (slice_bound (height g) y1) r
  && in_slice (slice_bound (width g) x0) (slice_bound (width g) x1) c.

(** A bounding box that lies within the raster [g]. *)
Definition bbox_within (g : grid) (bb : Z * Z * Z * Z) : Prop :=
  let '(x0, y0, x1, y1) := bb in
  (0 <= x0 <= x1 /\ x1 <= Z.of_nat (width g)
   /\ 0 <= y0 <= y1 /\ y1 <= Z.of_nat (height g))%Z.

(** The width in character cells that [block_body] hands to [fw_fill]
    for a box from [x0] to [x1]. *)
Definition wrap_width (x0 x1 : Z) : Z :=
  (Z.quot (x1 - x0) (FONT_SIZE / 2) - 1)%Z.

(** A block that [block_body] can process on the page raster [g]: a
    title block with at least one recognised line, or another block
    whose bounding box lies within the page. *)
Definition block_ok (M : Models) (g : grid) (line : block) : Prop :=
  if PyStr.eqb (type line) (PyStr.lit "title")
  then ocr_model M (img line) <> []
  else bbox_within g (bbox line).

(** A page image that the pass-through branch can write: it has rows,
    and the width computed for its resize is not 0. *)
Definition passes_through (image : grid) : Prop :=
  height image <> 0
  /\ resized_width_is_zero (height image) (width image) = false.

(** A page image that either branch of the page loop can write: it has
    rows and columns, its resized width is not 0, and [block_body] can
    process all of its blocks. *)
Definition page_ok (M : Models) (image : grid) : Prop :=
  passes_through image
  /\ width image <> 0
  /\ Forall (block_ok M image) (layout_model M image).

(** The decimal number written by a string of digits (a character that
    is no digit counts as 0). *)
Fixpoint digits_uint (s : str) : Decimal.uint :=
  match s with
  | [] => Decimal.Nil
  | c :: s' =>
      let u := digits_uint s' in
      match c with
      | 49%N => Decimal.D1 u
      | 50%N => Decimal.D2 u
      | 51%N => Decimal.D3 u
      | 52%N => Decimal.D4 u
      | 53%N => Decimal.D5 u
      | 54%N => Decimal.D6 u
      | 55%N => Decimal.D7 u
      | 56%N => Decimal.D8 u
      | 57%N => Decimal.D9 u
      | _ => Decimal.D0 u
      end
  end.

Definition page_index_of (digits : str) : nat :=
  Nat.of_uint (digits_uint digits).

(* ================================================================== *)
(** * Properties of the string operations *)

Lemma PyStr_eqb_eq (a b : str) : PyStr.eqb a b = true <-> a = b.
Proof.
  revert b; induction a as [|x a IH]; intros [|y b]; simpl;
    try (split; [discriminate | congruence]); try tauto.
  rewrite andb_true_iff, N.eqb_eq, IH. split.
  - intros [-> ->]; reflexivity.
  - intros E; injection E; auto.
Qed.

Lemma PyStr_eqb_refl (a : str) : PyStr.eqb a a = true.
Proof. apply PyStr_eqb_eq; reflexivity. Qed.



(** [rsplit(".", 1)[0]] returns a prefix of its argument. *)
Lemma rsplit1_head_prefix (c : N) (s : str) :
  exists k, PyStr.rsplit1_head c s = firstn k s.
Proof.
  unfold PyStr.rsplit1_head. destruct (PyStr.rfind c s) as [k|].
  - exists k; reflexivity.
  - exists (length s); symmetry; apply firstn_all.
Qed.

Lemma firstn_then_skipn {A} (m : nat) (s : list A) :
  firstn m s ++ skipn (length (firstn m s)) s = s.
Proof.
  rewrite length_firstn.
  destruct (Nat.le_ge_cases m (length s)) as [Hle|Hge].
  - rewrite Nat.min_l by exact Hle. apply firstn_skipn.
  - rewrite Nat.min_r by exact Hge.
    rewrite (firstn_all2 s Hge), skipn_all, app_nil_r. reflexivity.
Qed.

(* ================================================================== *)
(** * Chunking *)

(** Each iteration moves a prefix of [rest] to the end of [texts]. *)
Lemma chunk_step_partition (st : list str * str) (i : nat) :
  concat (fst (chunk_step st i)) ++ snd (chunk_step st i)
  = concat (fst st) ++ snd st.
Proof.
  destruct st as [texts rest]. unfold chunk_step. cbn [fst snd].
  destruct (rsplit1_head_prefix PERIOD (firstn ((i + 1) * 512) rest))
    as [k Hk].
  rewrite Hk, firstn_firstn, concat_app. cbn [concat].
  rewrite app_nil_r, <- app_assoc. f_equal. apply firstn_then_skipn.
Qed.

Lemma chunk_fold_partition (idx : list nat) (st : list str * str) :
  concat (fst (fold_left chunk_step idx st))
         ++ snd (fold_left chunk_step idx st)
  = concat (fst st) ++ snd st.
Proof.
  revert st; induction idx as [|i idx IH]; intros st; cbn [fold_left].
  - reflexivity.
  - rewrite IH. apply chunk_step_partition.
Qed.

(** What the chunk loop does guarantee: the chunks, followed by the
    text the loop leaves in [rest], are the input. *)
Lemma chunks_then_rest (text : str) :
  concat (chunks text) ++ chunks_rest text = text.
Proof.
  unfold chunks, chunks_rest. destruct (512 <? length text).
  - unfold chunk_loop. rewrite chunk_fold_partition. reflexivity.
  - cbn. rewrite !app_nil_r. reflexivity.
Qed.

(** The chunk appended by iteration [i] is bounded by that iteration's
    window, [(i + 1) * 512] characters. *)
Lemma chunk_step_bound (st : list str * str) (i : nat) :
  exists truncated,
    fst (chunk_step st i) = fst st ++ [truncated]
    /\ length truncated <= (i + 1) * 512.
Proof.
  destruct st as [texts rest]. unfold chunk_step. cbn [fst].
  eexists. split; [reflexivity|].
  destruct (rsplit1_head_prefix PERIOD (firstn ((i + 1) * 512) rest))
    as [k Hk].
  rewrite Hk, firstn_firstn.
  etransitivity; [apply firstn_le_length|]. apply Nat.le_min_r.
Qed.

(** C8. A text of at most 512 characters is handed to the translation
    model as exactly one chunk, the text itself. *)
Theorem C8_short_text_single_chunk (text : str) :
  length text <= 512 -> chunks text = [text].
Proof.
  intros Hlen. unfold chunks.
  destruct (Nat.ltb_spec 512 (length text)) as [Hlt|_].
  - lia.
  - reflexivity.
Qed.

Lemma C8_short_text_single_chunk_witness :
  length (PyStr.lit "Hello world. Second line.") <= 512
  /\ chunks (PyStr.lit "Hello world. Second line.")
     = [PyStr.lit "Hello world. Second line."].
Proof.
  split.
  - vm_compute. lia.
  - apply (C8_short_text_single_chunk
             (PyStr.lit "Hello world. Second line.")).
    vm_compute. lia.
Defined.

(** C1. At a text of 1025 letters without a period the chunk loop takes
    [rest[:512]] in its first iteration and [rest[:1024]] in its second:
    the chunks have lengths 512, 513 and 0, so the second one is longer
    than 512 characters. *)
Theorem C1_chunk_longer_than_512 :
  let text := repeat 97%N 1025 in
  512 < length text
  /\ map (@length N) (chunks text) = [512; 513; 0]
  /\ exists c, In c (chunks text) /\ 512 < length c.
Proof.
  cbv zeta. split; [|split].
  - apply Nat.ltb_lt. vm_compute. reflexivity.
  - vm_compute. reflexivity.
  - exists (repeat 97%N 513). split.
    + vm_compute. right; left; reflexivity.
    + apply Nat.ltb_lt. vm_compute. reflexivity.
Qed.

(** C2. At a 513-character text whose only period is at position 100,
    the first chunk is the 100 characters before the period and the
    second iteration, whose window starts with that period, yields the
    empty chunk: the chunks concatenate to the first 100 characters and
    the other 413 stay in [rest], which is never read. *)
Theorem C2_chunks_drop_the_tail :
  let text := repeat 97%N 100 ++ [PERIOD] ++ repeat 98%N 412 in
  512 < length text
  /\ chunks text = [repeat 97%N 100; []]
  /\ chunks_rest text = [PERIOD] ++ repeat 98%N 412
  /\ concat (chunks text) <> text.
Proof.
  cbv zeta. split; [|split; [|split]].
  - apply Nat.ltb_lt. vm_compute. reflexivity.
  - vm_compute. reflexivity.
  - vm_compute. reflexivity.
  - intros E. apply (f_equal (@length N)) in E. vm_compute in E.
    discriminate E.
Qed.

(* ================================================================== *)
(** * The heap: what a block, and a page, can change *)

Lemma update_length {A} (k : nat) (x : A) (l : list A) :
  length (update k x l) = length l.
Proof.
  revert k; induction l as [|y l IH]; intros [|k]; simpl; auto.
Qed.

Lemma nth_update_other {A} (k j : nat) (x d : A) (l : list A) :
  j <> k -> nth j (update k x l) d = nth j l d.
Proof.
  revert k j; induction l as [|y l IH]; intros [|k] [|j] Hne; simpl;
    auto; try congruence.
Qed.

Ltac inv_ok H := inversion H; subst; clear H.

(** Unfold the monadic plumbing of a hypothesis or of the goal. *)
Ltac run_m := unfold bind, lift, load, store, ret, raise, alloc in *.

Section Frames.

Variable M : Models.

(** An iteration returns the same heap size, leaves every array but the
    page array as it was, and can only raise the flag. *)
Lemma block_body_frame (page : ref) (r r' : bool) (line : block)
      (h h' : heap) :
  block_body M page r line h = Ok (r', h') ->
  length h' = length h
  /\ (forall k, k <> page -> nth k h' [] = nth k h [])
  /\ (r = true -> r' = true).
Proof.
  unfold block_body.
  destruct (negb (PyStr.eqb (type line) (PyStr.lit "title"))).
  - destruct (1 <? length (map fst (ocr_model M (img line)))).
    + destruct (quality_gate_rejects _).
      * run_m. intros E; inv_ok E. auto.
      * destruct (bbox line) as [[[x0 y0] x1] y1]. run_m.
        destruct (render_block _ _ _ _) as [blk|e]; [|discriminate].
        destruct (setitem _ _ _ _ _ _ _ _) as [a'|e]; [|discriminate].
        intros E; inv_ok E. repeat split; auto.
        -- apply update_length.
        -- intros k Hk. now apply nth_update_other.
    + run_m. intros E; inv_ok E. auto.
  - destruct (ocr_model M (img line)) as [|[title c] rest].
    + run_m. discriminate.
    + destruct (is_references_title M title); run_m;
        intros E; inv_ok E; auto.
Qed.

Lemma block_loop_frame (page : ref) (blocks : list block) :
  forall (r r' : bool) (h h' : heap),
    block_loop M page r blocks h = Ok (r', h') ->
    length h' = length h
    /\ (forall k, k <> page -> nth k h' [] = nth k h [])
    /\ (r = true -> r' = true).
Proof.
  induction blocks as [|line blocks IH]; intros r r' h h'; cbn [block_loop].
  - run_m. intros E; inv_ok E. auto.
  - unfold bind at 1.
    destruct (block_body M page r line h) as [[r1 h1]|e] eqn:E1;
      [|discriminate].
    intros E2. apply block_body_frame in E1 as (L1 & F1 & R1).
    apply IH in E2 as (L2 & F2 & R2). repeat split.
    + congruence.
    + intros k Hk. rewrite F2, F1; auto.
    + auto.
Qed.

(** The outcome of an iteration on the heap does not depend on the flag
    it is entered with: blocks are drawn in the same way before and
    after the title "References" has been seen on the page. *)
Lemma block_body_flag_irrelevant (page : ref) (r1 r2 : bool)
      (line : block) (h : heap) :
  heap_of (block_body M page r1 line h)
  = heap_of (block_body M page r2 line h).
Proof.
  unfold block_body.
  destruct (negb (PyStr.eqb (type line) (PyStr.lit "title"))).
  - destruct (1 <? length (map fst (ocr_model M (img line)))); auto.
    destruct (quality_gate_rejects _); auto.
    destruct (bbox line) as [[[x0 y0] x1] y1]. run_m.
    destruct (render_block _ _ _ _) as [blk|e]; auto.
    destruct (setitem _ _ _ _ _ _ _ _) as [a'|e]; auto.
  - destruct (ocr_model M (img line)) as [|[title c] rest]; auto.
    destruct (is_references_title M title); auto.
Qed.

Lemma block_loop_flag_irrelevant (page : ref) (blocks : list block) :
  forall (r1 r2 : bool) (h : heap),
    heap_of (block_loop M page r1 blocks h)
    = heap_of (block_loop M page r2 blocks h).
Proof.
  induction blocks as [|line blocks IH]; intros r1 r2 h; cbn [block_loop].
  - reflexivity.
  - unfold bind.
    pose proof (block_body_flag_irrelevant page r1 r2 line h) as E.
    destruct (block_body M page r1 line h) as [[a1 h1]|e1];
      destruct (block_body M page r2 line h) as [[a2 h2]|e2];
      cbn in E; try discriminate.
    + inv_ok E. apply IH.
    + inv_ok E. reflexivity.
Qed.

(** [__translate_one_page] allocates the array [img] and its deep copy
    [original_img] at the end of the heap, both holding the pixels of the
    page, and then runs the block loop on [img]. *)
Lemma translate_one_page_unfold (image : grid) (r : bool) (h : heap) :
  __translate_one_page M image r h
  = match block_loop M (length h) r (layout_model M image)
                     ((h ++ [image]) ++ [image]) with
    | Ok (r', h') => Ok ((length h, S (length h), r'), h')
    | Raise e => Raise e
    end.
Proof.
  unfold __translate_one_page, bind, alloc, load, ret.
  rewrite nth_middle.
  replace (nth (length h) ((h ++ [image]) ++ [image]) []) with image
    by (rewrite <- app_assoc; cbn; now rewrite nth_middle).
  rewrite length_app. cbn [length]. rewrite Nat.add_1_r.
  destruct (block_loop _ _ _ _ _) as [[r' h']|e]; reflexivity.
Qed.

End Frames.

(** C9. [__translate_one_page] returns two fresh, distinct arrays; when
    it returns, [original_img] holds exactly the pixels of the input page
    and every array that existed before the call holds what it held:
    whatever was drawn was drawn into [img] alone. *)
Theorem C9_original_image_preserved (M : Models) (image : grid) (r : bool)
        (h : heap) (im orig : ref) (r' : bool) (h' : heap) :
  __translate_one_page M image r h = Ok ((im, orig, r'), h') ->
  nth orig h' [] = image
  /\ orig <> im
  /\ length h <= im /\ length h <= orig
  /\ forall k, k < length h -> nth k h' [] = nth k h [].
Proof.
  rewrite translate_one_page_unfold.
  destruct (block_loop _ _ _ _ _) as [[r1 h1]|e] eqn:E; [|discriminate].
  intros E'; inv_ok E'.
  apply block_loop_frame in E as (_ & F & _).
  repeat split; try lia.
  - rewrite F by lia.
    replace (S (length h)) with (length (h ++ [image]))
      by (rewrite length_app; cbn; lia).
    apply nth_middle.
  - intros k Hk. rewrite F by lia.
    rewrite <- app_assoc. now rewrite app_nth1.
Qed.

Lemma C9_original_image_preserved_witness :
  exists h',
    __translate_one_page Example.models (Example.tag 2) false
                         [Example.tag 7] = Ok ((1, 2, false), h')
    /\ nth 2 h' [] = Example.tag 2
    /\ nth 1 h' [] <> Example.tag 2
    /\ nth 0 h' [] = Example.tag 7.
Proof.
  eexists. split; [vm_compute; reflexivity|].
  pose proof (@C9_original_image_preserved Example.models (Example.tag 2)
                false [Example.tag 7] 1 2 false _ eq_refl)
    as (Horig & _ & _ & _ & Hold).
  split; [exact Horig|]. split; [vm_compute; discriminate|].
  apply (Hold 0). vm_compute. constructor.
Defined.

(* ================================================================== *)
(** * Title blocks and the references flag *)

Lemma block_loop_app (M : Models) (page : ref) (l1 l2 : list block) :
  forall (r : bool) (h : heap),
    block_loop M page r (l1 ++ l2) h
    = match block_loop M page r l1 h with
      | Ok (r1, h1) => block_loop M page r1 l2 h1
      | Raise e => Raise e
      end.
Proof.
  induction l1 as [|line l1 IH]; intros r h; cbn [block_loop app].
  - reflexivity.
  - unfold bind. destruct (block_body M page r line h) as [[r1 h1]|e].
    + apply IH.
    + reflexivity.
Qed.

Lemma title_block_body (M : Models) (page : ref) (r : bool) (line : block)
      (h : heap) :
  type line = PyStr.lit "title" ->
  block_body M page r line h
  = match ocr_model M (img line) with
    | [] => Raise IndexError
    | (title, _) :: _ =>
        Ok (if is_references_title M title then true else r, h)
    end.
Proof.
  intros Ht. unfold block_body. rewrite Ht, PyStr_eqb_refl. cbn [negb].
  destruct (ocr_model M (img line)) as [|[title c] rest]; [reflexivity|].
  destruct (is_references_title M title); reflexivity.
Qed.

(** C10. A title block on which OCR recognises no line makes the
    iteration on it raise [IndexError] (the block is not skipped), so the
    page as a whole raises; the exception is this [IndexError] whenever
    the blocks in front of the title were processed.  A title block with
    at least one recognised line never raises and leaves the heap as it
    is. *)
Theorem C10_title_without_ocr_line_raises (M : Models) (image : grid)
        (r : bool) (h : heap) (before after : list block) (line : block) :
  layout_model M image = before ++ line :: after ->
  type line = PyStr.lit "title" ->
  ocr_model M (img line) = [] ->
  (forall page r0 h0, block_body M page r0 line h0 = Raise IndexError)
  /\ (exists e, __translate_one_page M image r h = Raise e)
  /\ (forall r1 h1,
         block_loop M (length h) r before ((h ++ [image]) ++ [image])
         = Ok (r1, h1) ->
         __translate_one_page M image r h = Raise IndexError)
  /\ (forall line' page r0 h0,
         type line' = PyStr.lit "title" ->
         ocr_model M (img line') <> [] ->
         exists r1, block_body M page r0 line' h0 = Ok (r1, h0)).
Proof.
  intros Hlayout Htitle Hocr.
  assert (Hbody : forall page r0 h0,
             block_body M page r0 line h0 = Raise IndexError).
  { intros. rewrite title_block_body by exact Htitle.
    rewrite Hocr. reflexivity. }
  assert (Hpage : forall r0 h0,
             match block_loop M (length h) r0 (before ++ line :: after) h0
             with
             | Ok _ => False
             | Raise e =>
                 forall r1 h1,
                   block_loop M (length h) r0 before h0 = Ok (r1, h1) ->
                   e = IndexError
             end).
  { intros r0 h0. rewrite block_loop_app.
    destruct (block_loop M (length h) r0 before h0) as [[r1 h1]|e].
    - cbn [block_loop]. unfold bind. rewrite Hbody. reflexivity.
    - discriminate. }
  repeat split.
  - exact Hbody.
  - rewrite translate_one_page_unfold, Hlayout.
    specialize (Hpage r ((h ++ [image]) ++ [image])).
    destruct (block_loop _ _ _ _ _) as [[r1 h1]|e]; [contradiction|].
    exists e; reflexivity.
  - intros r1 h1 Hbefore.
    rewrite translate_one_page_unfold, Hlayout.
    specialize (Hpage r ((h ++ [image]) ++ [image])).
    destruct (block_loop _ _ _ _ _) as [[r2 h2]|e]; [contradiction|].
    rewrite (Hpage _ _ Hbefore). reflexivity.
  - intros line' page r0 h0 Ht Hne.
    rewrite title_block_body by exact Ht.
    destruct (ocr_model M (img line')) as [|[title c] rest];
      [congruence|].
    eexists; reflexivity.
Qed.

Lemma C10_title_without_ocr_line_raises_witness :
  __translate_one_page Example.models (Example.tag 3) false []
  = Raise IndexError.
Proof.
  pose proof (@C10_title_without_ocr_line_raises Example.models
                (Example.tag 3) false [] [Example.body_block] []
                Example.blank_title_block eq_refl eq_refl eq_refl)
    as (_ & _ & Hpage & _).
  eapply Hpage. vm_compute. reflexivity.
Defined.

Section PageLoop.

Variable M : Models.
Variable output_dir : str.

Lemma page_body_pass_through (st : loop_state) (i : nat) (image : grid)
      (h : heap) :
  reached_references st = true ->
  passes_through image ->
  page_body M output_dir st i image h
  = Ok ({| pdf_files := pdf_files st ++ [output_path output_dir i];
           reached_references := true;
           disk := disk st
                     ++ [(output_path output_dir i, PassThrough image)] |},
        h).
Proof.
  intros Hr [Hrows Hwidth]. unfold page_body. rewrite Hr. cbn [negb].
  apply Nat.eqb_neq in Hrows. rewrite Hrows, Hwidth. reflexivity.
Qed.

Lemma page_body_translating (st : loop_state) (i : nat) (image : grid)
      (h : heap) :
  reached_references st = false ->
  page_body M output_dir st i image h
  = match __translate_one_page M image false h with
    | Ok ((im, orig, r), h') =>
        if is_empty (nth orig h' []) || is_empty (nth im h' [])
        then Raise ValueError
        else
          Ok ({| pdf_files := pdf_files st ++ [output_path output_dir i];
                 reached_references := r;
                 disk := disk st
                           ++ [(output_path output_dir i,
                                SideBySide (nth orig h' [])
                                           (nth im h' []))] |},
              h')
    | Raise e => Raise e
    end.
Proof.
  intros Hr. unfold page_body. rewrite Hr. cbn [negb]. unfold bind at 1 2.
  destruct (__translate_one_page M image false h) as [[[[im orig] r] h']|e];
    [|reflexivity].
  run_m. destruct (is_empty (nth orig h' []) || is_empty (nth im h' []));
    reflexivity.
Qed.

(** Once the flag is set, the rest of the loop cannot fail on page
    images that have rows and a resized width that is not 0: it touches
    no array, keeps the flag, and writes every page as it is. *)
Lemma page_loop_pass_through (images : list grid) :
  Forall passes_through images ->
  forall (i : nat) (st : loop_state) (h : heap),
    reached_references st = true ->
    page_loop M output_dir i images st h
    = Ok ({| pdf_files :=
               pdf_files st
                 ++ map (output_path output_dir) (seq i (length images));
             reached_references := true;
             disk := disk st ++ pass_through_files output_dir i images |},
          h).
Proof.
  induction 1 as [|image images Hrows _ IH]; intros i st h Hr;
    cbn [page_loop length seq map pass_through_files].
  - unfold ret. rewrite !app_nil_r. destruct st; cbn in *; subst. reflexivity.
  - unfold bind. rewrite page_body_pass_through by assumption.
    rewrite IH by reflexivity. cbn [pdf_files disk].
    rewrite <- !app_assoc. reflexivity.
Qed.

Lemma page_body_flag (st st' : loop_state) (i : nat) (image : grid)
      (h h' : heap) :
  page_body M output_dir st i image h = Ok (st', h') ->
  reached_references st = true -> reached_references st' = true.
Proof.
  intros E Hr. unfold page_body in E. rewrite Hr in E. cbn [negb] in E.
  destruct (height image =? 0); run_m; [discriminate|].
  destruct (resized_width_is_zero _ _); [discriminate|].
  inv_ok E. reflexivity.
Qed.

Lemma page_loop_app (l1 l2 : list grid) :
  forall (i : nat) (st : loop_state) (h : heap),
    page_loop M output_dir i (l1 ++ l2) st h
    = match page_loop M output_dir i l1 st h with
      | Ok (st1, h1) => page_loop M output_dir (i + length l1) l2 st1 h1
      | Raise e => Raise e
      end.
Proof.
  induction l1 as [|image l1 IH]; intros i st h; cbn [page_loop app length].
  - unfold ret. rewrite Nat.add_0_r. reflexivity.
  - unfold bind.
    destruct (page_body M output_dir st i image h) as [[st1 h1]|e].
    + rewrite IH. rewrite Nat.add_succ_comm. reflexivity.
    + reflexivity.
Qed.

End PageLoop.

(** The errors of the page loop on page images that cannot be written:
    a page of one column and 1401 rows passes the division but its
    resized width [int(1400 / 1401 * 1)] is 0; so is that of a page of
    49 columns and 68600 rows, whose exact quotient would be 1; a page
    without rows fails in the division; and a page with rows but no
    column fails in [imshow] when it is to be translated. *)
Example page_images_that_raise :
  let set := {| pdf_files := []; reached_references := true; disk := [] |} in
  page_body Example.models Example.output_dir set 0
            (repeat [WHITE] 1401) []
  = Raise ValueError
  /\ resized_width_is_zero (N.to_nat 68600) 49 = true
  /\ resized_width_is_zero 1400 1 = false
  /\ page_body Example.models Example.output_dir set 0 [] []
     = Raise ZeroDivisionError
  /\ page_body Example.models Example.output_dir initial_state 0
               [[]; []] []
     = Raise ValueError.
Proof. cbv zeta. repeat split; vm_compute; reflexivity. Qed.

(** C6. The flag is [false] when the page loop of [_translate_pdf] is
    entered.  No iteration on a block, no call of [__translate_one_page]
    and no iteration on a page turns a [true] flag into [false]; from a
    state whose flag is set, the loop over any further page images that
    can be passed through (each has rows, and a resized width that is
    not 0) runs to its end with the flag still set. *)
Theorem C6_reached_references_never_resets (M : Models) (output_dir : str) :
  reached_references initial_state = false
  /\ (forall images st merged,
         _translate_pdf M images output_dir = Ok (st, merged) ->
         exists h, page_loop M output_dir 0 images initial_state []
                   = Ok (st, h))
  /\ (forall page r line h r' h',
         block_body M page r line h = Ok (r', h') ->
         r = true -> r' = true)
  /\ (forall image r h im orig r' h',
         __translate_one_page M image r h = Ok ((im, orig, r'), h') ->
         r = true -> r' = true)
  /\ (forall st i image h st' h',
         page_body M output_dir st i image h = Ok (st', h') ->
         reached_references st = true -> reached_references st' = true)
  /\ (forall images i st h,
         Forall passes_through images ->
         reached_references st = true ->
         exists st',
           page_loop M output_dir i images st h = Ok (st', h)
           /\ reached_references st' = true).
Proof.
  split; [reflexivity|]. split; [|split; [|split; [|split]]].
  - intros images st merged. unfold _translate_pdf.
    destruct (page_loop M output_dir 0 images initial_state [])
      as [[st0 h0]|e]; [|discriminate].
    destruct (__merge_pdfs (disk st0) (pdf_files st0)); [|discriminate].
    intros E; inv_ok E. exists h0; reflexivity.
  - intros page r line h r' h' E. now apply block_body_frame in E.
  - intros image r h im orig r' h'. rewrite translate_one_page_unfold.
    destruct (block_loop _ _ _ _ _) as [[r1 h1]|e] eqn:E; [|discriminate].
    intros E'; inv_ok E'. now apply block_loop_frame in E.
  - intros st i image h st' h'. apply page_body_flag.
  - intros images i st h Hrows Hr. eexists. split.
    + apply page_loop_pass_through; assumption.
    + reflexivity.
Qed.

Lemma C6_reached_references_never_resets_witness :
  reached_references initial_state = false
  /\ exists st',
      page_loop Example.models Example.output_dir 2
                [Example.tag 1; Example.tag 2]
                {| pdf_files := []; reached_references := true; disk := [] |}
                []
      = Ok (st', [])
      /\ reached_references st' = true.
Proof.
  pose proof (C6_reached_references_never_resets Example.models
                Example.output_dir) as (Hinit & _ & _ & _ & _ & Hloop).
  split; [exact Hinit|].
  apply (Hloop [Example.tag 1; Example.tag 2] 2
               {| pdf_files := []; reached_references := true; disk := [] |}
               []).
  - repeat constructor; (discriminate || (vm_compute; reflexivity)).
  - reflexivity.
Defined.

(* ================================================================== *)
(** * ReferenceSectionDetector *)

(** The comparison ignores the case of the letters and nothing else. *)
Example is_references_title_examples (M : Models) :
  is_references_title M (PyStr.lit "References") = true
  /\ is_references_title M (PyStr.lit "REFERENCE") = true
  /\ is_references_title M (PyStr.lit "references") = true
  /\ is_references_title M (PyStr.lit "References.") = false
  /\ is_references_title M (PyStr.lit "Introduction") = false.
Proof. repeat split; vm_compute; reflexivity. Qed.

Lemma block_loop_detects (M : Models) (page : ref) (blocks : list block) :
  has_references_title M blocks ->
  forall (r r' : bool) (h h' : heap),
    block_loop M page r blocks h = Ok (r', h') -> r' = true.
Proof.
  intros (line & title & c & rest & Hin & Ht & Hocr & Href).
  induction blocks as [|b blocks IH]; [contradiction|].
  intros r r' h h'. cbn [block_loop]. unfold bind.
  destruct (block_body M page r b h) as [[r1 h1]|e] eqn:E1; [|discriminate].
  intros E2. destruct Hin as [->|Hin].
  - rewrite title_block_body, Hocr, Href in E1 by exact Ht. inv_ok E1.
    apply block_loop_frame in E2 as (_ & _ & Hmono). auto.
  - eapply IH; eauto.
Qed.

(** C3. Let the page [p] be reached with the flag unset, let one of its
    title blocks read "references" or "reference" up to case, and let the
    processing of [p] complete.  Then [p] itself is written as a
    translated (side by side) page made by [__translate_one_page], whose
    block loop draws the blocks in the same way whatever the flag is;
    the flag is set afterwards; and every later page that can be passed
    through (an image with rows whose resized width is not 0) is written
    as the page image itself, with no array allocated or changed for
    it. *)
Theorem C3_references_title_stops_translation (M : Models)
        (output_dir : str) (pre : list grid) (p : grid) (post : list grid)
        (st st1 : loop_state) (h h1 : heap) :
  page_loop M output_dir 0 pre initial_state [] = Ok (st, h) ->
  reached_references st = false ->
  has_references_title M (layout_model M p) ->
  page_body M output_dir st (length pre) p h = Ok (st1, h1) ->
  Forall passes_through post ->
  (exists im orig,
      __translate_one_page M p false h = Ok ((im, orig, true), h1)
      /\ disk st1
         = disk st ++ [(output_path output_dir (length pre),
                        SideBySide (nth orig h1 []) (nth im h1 []))])
  /\ (forall page r blocks h0,
         heap_of (block_loop M page r blocks h0)
         = heap_of (block_loop M page false blocks h0))
  /\ reached_references st1 = true
  /\ exists st2,
      page_loop M output_dir 0 (pre ++ p :: post) initial_state []
      = Ok (st2, h1)
      /\ reached_references st2 = true
      /\ disk st2
         = disk st1
             ++ pass_through_files output_dir (S (length pre)) post.
Proof.
  intros Hpre Hflag Htitle Hbody Hrows.
  rewrite page_body_translating in Hbody by exact Hflag.
  destruct (__translate_one_page M p false h)
    as [[[[im orig] r] h']|e] eqn:Epage; [|discriminate].
  destruct (is_empty (nth orig h' []) || is_empty (nth im h' []))
    eqn:Eempty; [discriminate|].
  inv_ok Hbody.
  assert (r = true) as ->.
  { rewrite translate_one_page_unfold in Epage.
    destruct (block_loop _ _ _ _ _) as [[r1 h2]|e] eqn:Eloop;
      [|discriminate].
    inv_ok Epage. eapply block_loop_detects; eauto. }
  split; [|split; [|split]].
  - exists im, orig. split; reflexivity.
  - intros. apply block_loop_flag_irrelevant.
  - reflexivity.
  - eexists. split; [|split].
    + rewrite page_loop_app, Hpre. cbn [page_loop Nat.add]. unfold bind.
      rewrite page_body_translating, Epage, Eempty by exact Hflag.
      rewrite page_loop_pass_through by (exact Hrows || reflexivity).
      reflexivity.
    + reflexivity.
    + reflexivity.
Qed.

Lemma C3_references_title_stops_translation_witness :
  exists st2 h1,
    page_loop Example.models Example.output_dir 0
              ([Example.tag 2] ++ Example.tag 1
                 :: [Example.tag 2; Example.tag 5])
              initial_state []
    = Ok (st2, h1)
    /\ reached_references st2 = true
    /\ skipn 2 (disk st2)
       = pass_through_files Example.output_dir 2
                            [Example.tag 2; Example.tag 5].
Proof.
  destruct (page_loop Example.models Example.output_dir 0 [Example.tag 2]
                      initial_state []) as [[st h]|e] eqn:Epre;
    [|vm_compute in Epre; discriminate].
  destruct (page_body Example.models Example.output_dir st 1
                      (Example.tag 1) h) as [[st1 h1]|e] eqn:Ebody;
    [|vm_compute in Epre; inv_ok Epre; vm_compute in Ebody; discriminate].
  assert (Hflag : reached_references st = false)
    by (vm_compute in Epre; inv_ok Epre; reflexivity).
  assert (Htitle : has_references_title Example.models
                     (layout_model Example.models (Example.tag 1))).
  { exists Example.references_block, (PyStr.lit "References"), tt, [].
    repeat split. right; left; reflexivity. }
  assert (Hrows : Forall passes_through [Example.tag 2; Example.tag 5])
    by (repeat constructor; (discriminate || (vm_compute; reflexivity))).
  destruct (@C3_references_title_stops_translation Example.models
              Example.output_dir [Example.tag 2] (Example.tag 1)
              [Example.tag 2; Example.tag 5] st st1 h h1
              Epre Hflag Htitle Ebody Hrows)
    as (_ & _ & _ & st2 & Hrun & Hset & Hdisk).
  exists st2, h1. split; [exact Hrun|]. split; [exact Hset|].
  rewrite Hdisk. vm_compute in Epre. inv_ok Epre.
  vm_compute in Ebody. inv_ok Ebody. reflexivity.
Defined.

(* ================================================================== *)
(** * The quality gate and the per-block skips *)

Lemma is_japanese_spec (c : N) : is_japanese c = true <-> target_script c.
Proof.
  unfold is_japanese, in_range, target_script.
  rewrite !orb_true_iff, !andb_true_iff, !N.leb_le. tauto.
Qed.

Lemma findall_not_japanese_spec (t : str) (c : N) :
  In c (findall_not_japanese t) <-> In c t /\ ~ target_script c.
Proof.
  unfold findall_not_japanese. rewrite filter_In, negb_true_iff.
  rewrite <- is_japanese_spec. destruct (is_japanese c); intuition congruence.
Qed.

(** The gate compares five times the number of matches with four times
    the length. *)
Lemma quality_gate_rejects_iff (t : str) :
  quality_gate_rejects t = true
  <-> 4 * length t < 5 * length (findall_not_japanese t).
Proof.
  unfold quality_gate_rejects. rewrite negb_true_iff.
  rewrite <- not_true_iff_false, Qle_bool_iff.
  unfold Qle, Qmult, inject_Z. cbn [Qnum Qden]. lia.
Qed.

Lemma findall_none (t : str) :
  Forall target_script t -> findall_not_japanese t = [].
Proof.
  induction 1 as [|c t Hc _ IH]; [reflexivity|].
  unfold findall_not_japanese in *. cbn [filter].
  apply is_japanese_spec in Hc. rewrite Hc. exact IH.
Qed.

Lemma not_title (line : block) :
  type line <> PyStr.lit "title" ->
  negb (PyStr.eqb (type line) (PyStr.lit "title")) = true.
Proof.
  intros Hne. apply negb_true_iff, not_true_iff_false.
  rewrite PyStr_eqb_eq. exact Hne.
Qed.

Section Skips.

Variable M : Models.

(** A body block with fewer than two recognised lines is skipped. *)
Lemma few_lines_skip (page : ref) (r : bool) (line : block) (h : heap) :
  type line <> PyStr.lit "title" ->
  length (ocr_model M (img line)) < 2 ->
  block_body M page r line h = Ok (r, h).
Proof.
  intros Hne Hlen. unfold block_body. rewrite (@not_title line Hne).
  rewrite length_map.
  destruct (Nat.ltb_spec 1 (length (ocr_model M (img line)))); [lia|].
  reflexivity.
Qed.

(** A body block whose translation the gate rejects is skipped. *)
Lemma rejected_skip (page : ref) (r : bool) (line : block) (h : heap) :
  type line <> PyStr.lit "title" ->
  quality_gate_rejects (translated_text_of M line) = true ->
  block_body M page r line h = Ok (r, h).
Proof.
  intros Hne Hrej. unfold block_body. rewrite (@not_title line Hne).
  destruct (1 <? length (map fst (ocr_model M (img line)))); [|reflexivity].
  unfold translated_text_of in Hrej. rewrite Hrej. reflexivity.
Qed.

(** The second loop of [__translate] keeps, in order, the translations
    that do not start with the artifact prefix. *)
Lemma translate_loop_filter (texts acc : list str) :
  translate_loop M texts acc
  = acc ++ filter (fun res => negb (PyStr.startswith res WEIRD_PREFIX))
                  (map (translate_model M) texts).
Proof.
  revert acc; induction texts as [|t texts IH]; intros acc;
    cbn [translate_loop map filter].
  - now rewrite app_nil_r.
  - destruct (PyStr.startswith (translate_model M t) WEIRD_PREFIX);
      cbn [negb]; rewrite IH; [reflexivity|].
    rewrite <- app_assoc. reflexivity.
Qed.

End Skips.

(** C4. The gate rejects a translated text exactly when the number of
    its characters outside the four target-script ranges exceeds 0.8
    times its length (five times the number exceeds four times the
    length).  A text of target-script characters only is accepted, and a
    body block whose translation is rejected leaves the flag and every
    array, the page array included, as they were. *)
Theorem C4_quality_gate (M : Models) (t : str) :
  (forall c, In c (findall_not_japanese t)
             <-> In c t /\ ~ target_script c)
  /\ (quality_gate_rejects t = true
      <-> 4 * length t < 5 * length (findall_not_japanese t))
  /\ (Forall target_script t -> quality_gate_rejects t = false)
  /\ (forall page r line h,
         type line <> PyStr.lit "title" ->
         translated_text_of M line = t ->
         4 * length t < 5 * length (findall_not_japanese t) ->
         block_body M page r line h = Ok (r, h)).
Proof.
  split; [|split; [|split]].
  - apply findall_not_japanese_spec.
  - apply quality_gate_rejects_iff.
  - intros Hall. apply not_true_iff_false.
    rewrite quality_gate_rejects_iff, (findall_none Hall). cbn. lia.
  - intros page r line h Hne Ht Hmany. apply rejected_skip; [exact Hne|].
    rewrite Ht. now apply quality_gate_rejects_iff.
Qed.

Lemma C4_quality_gate_witness :
  quality_gate_rejects [12354; 12356]%N = false
  /\ block_body Example.models 0 false Example.latin_block [Example.tag 2]
     = Ok (false, [Example.tag 2]).
Proof.
  pose proof (C4_quality_gate Example.models [12354; 12356]%N)
    as (_ & _ & Haccept & _).
  pose proof (C4_quality_gate Example.models (PyStr.lit "Q one Q two"))
    as (_ & _ & _ & Hskip).
  split.
  - apply Haccept. repeat constructor; vm_compute; intuition discriminate.
  - apply Hskip.
    + vm_compute. discriminate.
    + vm_compute. reflexivity.
    + vm_compute. repeat constructor.
Defined.

(** C5, as the code has it.  A body block with fewer than two recognised
    lines, and one whose translation the gate rejects, leave the flag and
    every array as they were, and the loop goes on with the next block.
    A chunk translation that starts with the artifact prefix is left out
    of the block's translated text, which is the concatenation of the
    other chunk translations in order. *)
Theorem C5_skips (M : Models) (page : ref) (r : bool) (line : block)
        (h : heap) :
  type line <> PyStr.lit "title" ->
  (length (ocr_model M (img line)) < 2 ->
   block_body M page r line h = Ok (r, h))
  /\ (quality_gate_rejects (translated_text_of M line) = true ->
      block_body M page r line h = Ok (r, h))
  /\ (forall blocks,
         block_body M page r line h = Ok (r, h) ->
         block_loop M page r (line :: blocks) h
         = block_loop M page r blocks h)
  /\ (forall text,
         __translate M text
         = concat (filter
                     (fun res => negb (PyStr.startswith res WEIRD_PREFIX))
                     (map (translate_model M) (chunks text)))).
Proof.
  intros Hne. split; [|split; [|split]].
  - now apply few_lines_skip.
  - now apply rejected_skip.
  - intros blocks E. cbn [block_loop]. unfold bind. rewrite E. reflexivity.
  - intros text. unfold __translate. now rewrite translate_loop_filter.
Qed.

Lemma C5_skips_witness :
  block_body Example.models 0 false Example.label_block [Example.tag 2]
  = Ok (false, [Example.tag 2])
  /\ block_body Example.models 0 false Example.latin_block [Example.tag 2]
     = Ok (false, [Example.tag 2]).
Proof.
  split.
  - assert (Hne : type Example.label_block <> PyStr.lit "title")
      by (vm_compute; discriminate).
    apply (proj1 (@C5_skips Example.models 0 false Example.label_block
                            [Example.tag 2] Hne)).
    vm_compute. repeat constructor.
  - assert (Hne : type Example.latin_block <> PyStr.lit "title")
      by (vm_compute; discriminate).
    apply (proj1 (proj2 (@C5_skips Example.models 0 false
                                   Example.latin_block
                                   [Example.tag 2] Hne))).
    vm_compute. reflexivity.
Defined.

(** C5 as the specification words it fails: the block [mixed_block] is
    a body block with two recognised lines whose text falls into two
    chunks; the translation of the first starts with the artifact prefix
    and that of the second does not, and the block's region of the page
    (row 1) is overwritten. *)
Lemma C5_artifact_chunk_block_is_redrawn :
  let M := Example.models in
  let line := Example.mixed_block in
  let text :=
    re_sub_noise
      (PyStr.join (PyStr.lit " ") (map fst (ocr_model M (img line)))) in
  type line <> PyStr.lit "title"
  /\ map (fun t => PyStr.startswith (translate_model M t) WEIRD_PREFIX)
         (chunks text) = [true; false]
  /\ block_body M 0 false line [Example.tag 2]
     = Ok (false, [[[(2, 0, 0)%N; WHITE]; [WHITE; BLACK]]])
  /\ nth 1 (Example.tag 2) [] = [BLACK; WHITE]
  /\ ~ (block_body M 0 false line [Example.tag 2]
        = Ok (false, [Example.tag 2])).
Proof.
  cbv zeta. split; [|split; [|split; [|split]]].
  - vm_compute. discriminate.
  - vm_compute. reflexivity.
  - vm_compute. reflexivity.
  - reflexivity.
  - vm_compute. discriminate.
Qed.

(** When every chunk translation of a block starts with the artifact
    prefix the translated text is empty; the gate lets the empty text
    through (0 is not greater than 0) and the block's region is
    overwritten with the blank canvas. *)
Example all_chunks_discarded_block_is_blanked :
  let M := Example.models in
  let line := Example.weird_block in
  translated_text_of M line = []
  /\ quality_gate_rejects [] = false
  /\ block_body M 0 false line [Example.tag 2]
     = Ok (false, [[[(2, 0, 0)%N; WHITE]; [WHITE; WHITE]]]).
Proof.
  cbv zeta. repeat split; vm_compute; reflexivity.
Qed.

(* ================================================================== *)
(** * DocumentAssembler *)

Lemma PyStr_ltb_asym (a b : str) :
  PyStr.ltb a b = true -> PyStr.ltb b a = false.
Proof.
  revert b; induction a as [|x a IH]; intros [|y b]; simpl; auto;
    try discriminate.
  rewrite orb_true_iff, andb_true_iff, N.ltb_lt, N.eqb_eq.
  intros [Hlt|[-> Hlt]].
  - apply orb_false_iff; split.
    + apply N.ltb_ge. lia.
    + apply andb_false_iff; left. apply N.eqb_neq. lia.
  - rewrite N.ltb_irrefl, N.eqb_refl. cbn. now apply IH.
Qed.

Lemma insert_sorted_perm (x : str) (l : list str) :
  Permutation (x :: l) (insert_sorted x l).
Proof.
  induction l as [|y l IH]; cbn [insert_sorted]; [reflexivity|].
  destruct (PyStr.ltb x y); [reflexivity|].
  rewrite perm_swap. now constructor.
Qed.

Lemma insert_sorted_sorted (x : str) (l : list str) :
  Sorted not_after l -> Sorted not_after (insert_sorted x l).
Proof.
  induction 1 as [|y l Hs IH Hhd]; cbn [insert_sorted].
  - repeat constructor.
  - destruct (PyStr.ltb x y) eqn:Exy.
    + constructor; [now constructor|].
      constructor. now apply PyStr_ltb_asym.
    + constructor; [exact IH|].
      destruct Hhd as [|z l Hyz]; cbn [insert_sorted].
      * constructor. exact Exy.
      * destruct (PyStr.ltb x z); constructor; assumption.
Qed.

Lemma sorted_fold_spec (l : list str) :
  forall acc,
    Sorted not_after acc ->
    Sorted not_after (fold_left (fun a x => insert_sorted x a) l acc)
    /\ Permutation (l ++ acc)
                   (fold_left (fun a x => insert_sorted x a) l acc).
Proof.
  induction l as [|x l IH]; intros acc Hacc; cbn [fold_left app].
  - split; [exact Hacc | reflexivity].
  - destruct (IH (insert_sorted x acc) (insert_sorted_sorted x Hacc))
      as [Hs Hp].
    split; [exact Hs|].
    rewrite <- Hp. rewrite <- insert_sorted_perm.
    apply Permutation_middle.
Qed.






Lemma output_path_file_name (output_dir : str) (i : nat) :
  output_path output_dir i = output_dir ++ file_name i.
Proof. reflexivity. Qed.





Section Assembly.

Variable M : Models.
Variable output_dir : str.

Lemma page_body_files (st st' : loop_state) (i : nat) (image : grid)
      (h h' : heap) :
  page_body M output_dir st i image h = Ok (st', h') ->
  pdf_files st' = pdf_files st ++ [output_path output_dir i]
  /\ map fst (disk st') = map fst (disk st) ++ [output_path output_dir i].
Proof.
  destruct (reached_references st) eqn:Hr.
  - unfold page_body. rewrite Hr. cbn [negb].
    destruct (height image =? 0); run_m; [discriminate|].
    destruct (resized_width_is_zero _ _); [discriminate|].
    intros E; inv_ok E. cbn [pdf_files disk]. rewrite map_app. auto.
  - rewrite page_body_translating by exact Hr.
    destruct (__translate_one_page M image false h)
      as [[[[im orig] r] h1]|e]; [|discriminate].
    destruct (is_empty _ || is_empty _); [discriminate|].
    intros E; inv_ok E. cbn [pdf_files disk]. rewrite map_app. auto.
Qed.

(** The loop appends one path per page to [pdf_files], in page order,
    and writes the files under these paths in the same order. *)
Lemma page_loop_files (images : list grid) :
  forall (i : nat) (st st' : loop_state) (h h' : heap),
    page_loop M output_dir i images st h = Ok (st', h') ->
    pdf_files st'
    = pdf_files st ++ map (output_path output_dir) (seq i (length images))
    /\ map fst (disk st')
       = map fst (disk st)
           ++ map (output_path output_dir) (seq i (length images)).
Proof.
  induction images as [|image images IH]; intros i st st' h h';
    cbn [page_loop length seq map].
  - unfold ret. intros E; inv_ok E. now rewrite !app_nil_r.
  - unfold bind.
    destruct (page_body M output_dir st i image h) as [[st1 h1]|e] eqn:E1;
      [|discriminate].
    intros E2. apply page_body_files in E1 as [P1 D1].
    apply IH in E2 as [P2 D2].
    rewrite P2, D2, P1, D1, <- !app_assoc. auto.
Qed.

End Assembly.

Lemma read_file_absent (files : list (str * page_file)) (p : str) :
  ~ In p (map fst files) -> read_file files p = None.
Proof.
  induction files as [|[q f] files IH]; cbn [read_file map fst In];
    [reflexivity|].
  intros Hn. rewrite IH by tauto.
  destruct (PyStr.eqb q p) eqn:E; [|reflexivity].
  apply PyStr_eqb_eq in E. tauto.
Qed.

Lemma read_file_present (files : list (str * page_file)) (p : str)
      (f : page_file) :
  NoDup (map fst files) -> In (p, f) files -> read_file files p = Some f.
Proof.
  induction files as [|[q g] files IH]; cbn [read_file map fst];
    [contradiction|].
  intros Hnd Hin. inversion Hnd as [|q' l Hq Hnd']; subst.
  destruct Hin as [E|Hin].
  - inv_ok E. rewrite read_file_absent by exact Hq.
    now rewrite PyStr_eqb_refl.
  - now rewrite IH.
Qed.

(** The merge reads the paths in the order given. *)
Lemma merge_loop_reads (files : list (str * page_file)) (paths : list str) :
  forall acc merged,
    merge_loop files paths acc = Ok merged ->
    map Some merged = map Some acc ++ map (read_file files) paths.
Proof.
  induction paths as [|p paths IH]; intros acc merged; cbn [merge_loop map].
  - intros E; inv_ok E. now rewrite app_nil_r.
  - destruct (read_file files p) as [f|] eqn:Ef; [|discriminate].
    intros E. apply IH in E. rewrite E, map_app. cbn [map].
    rewrite <- app_assoc. reflexivity.
Qed.









(* ================================================================== *)
(** * Further properties of the chunk loop *)

Lemma rfind_Some_lt (c : N) (s : str) (k : nat) :
  PyStr.rfind c s = Some k -> k < length s.
Proof.
  revert k; induction s as [|d s IH]; intros k; cbn [PyStr.rfind length].
  - discriminate.
  - destruct (PyStr.rfind c s) as [j|].
    + intros E; inv_ok E. specialize (IH j eq_refl). lia.
    + destruct (N.eqb d c); [|discriminate]. intros E; inv_ok E. lia.
Qed.

Lemma rfind_Some_skipn (c : N) (s : str) (k : nat) :
  PyStr.rfind c s = Some k -> exists tl, skipn k s = c :: tl.
Proof.
  revert k; induction s as [|d s IH]; intros k; cbn [PyStr.rfind].
  - discriminate.
  - destruct (PyStr.rfind c s) as [j|].
    + intros E; inv_ok E. cbn [skipn]. now apply IH.
    + destruct (N.eqb d c) eqn:Edc; [|discriminate]. intros E; inv_ok E.
      apply N.eqb_eq in Edc. subst d. exists s. reflexivity.
Qed.

Lemma rfind_None_iff (c : N) (s : str) :
  PyStr.rfind c s = None <-> ~ In c s.
Proof.
  induction s as [|d s IH]; cbn [PyStr.rfind In].
  - tauto.
  - destruct (PyStr.rfind c s) as [j|].
    + split; [discriminate|]. intros Hn. exfalso. apply Hn. right.
      destruct (in_dec N.eq_dec c s) as [Hin|Hout]; [exact Hin|].
      apply IH in Hout. discriminate.
    + destruct (N.eqb_spec d c) as [->|Hne].
      * split; [discriminate|]. intros Hn. exfalso. apply Hn. now left.
      * split; [|reflexivity]. intros _ [E|Hin]; [congruence|].
        now apply (proj1 IH).
Qed.

(** The chunk of an iteration, and the part of [rest] it takes. *)
Lemma chunk_step_shape (texts : list str) (rest : str) (i : nat) :
  exists truncated,
    chunk_step (texts, rest) i
    = (texts ++ [truncated], skipn (length truncated) rest)
    /\ length truncated <= (i + 1) * 512
    /\ length truncated <= length rest
    /\ (~ In PERIOD (firstn ((i + 1) * 512) rest) ->
        truncated = firstn ((i + 1) * 512) rest)
    /\ (In PERIOD (firstn ((i + 1) * 512) rest) ->
        exists tl, skipn (length truncated) rest = PERIOD :: tl).
Proof.
  unfold chunk_step. eexists. split; [reflexivity|].
  unfold PyStr.rsplit1_head.
  destruct (PyStr.rfind PERIOD (firstn ((i + 1) * 512) rest)) as [k|] eqn:E.
  - pose proof (rfind_Some_lt _ _ E) as Hk.
    rewrite length_firstn in Hk.
    rewrite firstn_firstn, length_firstn.
    repeat split; try lia.
    + intros Hn. apply rfind_None_iff in Hn. congruence.
    + intros _. apply rfind_Some_skipn in E as [tl Htl].
      replace (Nat.min (Nat.min k ((i + 1) * 512)) (length rest)) with k
        by lia.
      replace (skipn k rest)
        with (skipn k (firstn ((i + 1) * 512) rest
                         ++ skipn ((i + 1) * 512) rest))
        by now rewrite firstn_skipn.
      rewrite skipn_app, Htl.
      replace (k - length (firstn ((i + 1) * 512) rest)) with 0
        by (rewrite length_firstn; lia).
      cbn [skipn app]. eexists; reflexivity.
  - rewrite length_firstn. repeat split; try lia.
    intros Hin. apply rfind_None_iff in E. contradiction.
Qed.

Lemma chunk_fold_chunks (n : nat) :
  forall (s : nat) (texts : list str) (rest : str),
  exists new,
    fst (fold_left chunk_step (seq s n) (texts, rest)) = texts ++ new
    /\ length new = n
    /\ forall j c, nth_error new j = Some c ->
                   length c <= (s + j + 1) * 512.
Proof.
  induction n as [|n IH]; intros s texts rest; cbn [seq fold_left].
  - exists []. rewrite app_nil_r. repeat split; auto.
    intros [|j] c; discriminate.
  - destruct (chunk_step_shape texts rest s) as (t & -> & Hb & _).
    destruct (IH (S s) (texts ++ [t]) (skipn (length t) rest))
      as (new & Hnew & Hlen & Hbound).
    exists (t :: new). split; [|split].
    + etransitivity; [exact Hnew|]. now rewrite <- app_assoc.
    + cbn; lia.
    + intros [|j] c; cbn [nth_error].
      * intros E; inv_ok E. rewrite Nat.add_0_r. exact Hb.
      * intros E. apply Hbound in E. lia.
Qed.

(** X1. The chunks, concatenated, are a prefix of the text: the loop
    never reorders, repeats or alters characters, it can only stop
    short. *)
Theorem X1_chunks_concatenate_to_a_prefix (text : str) :
  length (concat (chunks text)) <= length text
  /\ concat (chunks text) = firstn (length (concat (chunks text))) text.
Proof.
  pose proof (chunks_then_rest text) as E.
  split.
  - apply (f_equal (@length N)) in E. rewrite length_app in E. lia.
  - transitivity (firstn (length (concat (chunks text)))
                         (concat (chunks text) ++ chunks_rest text));
      [|now rewrite E].
    rewrite firstn_app, Nat.sub_diag, firstn_all, firstn_0, app_nil_r.
    reflexivity.
Qed.

(** X2. A text of more than 512 characters is cut into exactly
    [len / 512 + 1] chunks (some possibly empty), so that is the number
    of calls of the translation model; chunk number [i] has at most
    [(i + 1) * 512] characters. *)
Theorem X2_chunk_count_and_sizes (text : str) :
  512 < length text ->
  length (chunks text) = length text / 512 + 1
  /\ forall i c, nth_error (chunks text) i = Some c ->
                 length c <= (i + 1) * 512.
Proof.
  intros Hlen. unfold chunks.
  destruct (Nat.ltb_spec 512 (length text)) as [_|Hle]; [|lia].
  unfold chunk_loop.
  destruct (chunk_fold_chunks (length text / 512 + 1) 0 [] text)
    as (new & -> & Hn & Hbound).
  cbn [app]. split; [exact Hn|]. intros i c E. now apply Hbound in E.
Qed.

Lemma X2_chunk_count_and_sizes_witness :
  length (chunks (repeat 97%N 600 ++ [PERIOD] ++ repeat 98%N 600)) = 3.
Proof.
  pose proof (@X2_chunk_count_and_sizes
                (repeat 97%N 600 ++ [PERIOD] ++ repeat 98%N 600)) as H.
  destruct H as [Hcount _].
  - apply Nat.ltb_lt. vm_compute. reflexivity.
  - rewrite Hcount. vm_compute. reflexivity.
Defined.

Lemma chunk_fold_rest_no_period (n : nat) :
  forall (s : nat) (texts : list str) (rest : str),
    ~ In PERIOD rest ->
    length (snd (fold_left chunk_step (seq s n) (texts, rest)))
    <= length rest - 512 * n.
Proof.
  induction n as [|n IH]; intros s texts rest Hno; cbn [seq fold_left].
  - cbn [snd]. lia.
  - destruct (chunk_step_shape texts rest s) as (t & -> & _ & _ & Hall & _).
    assert (Ht : t = firstn ((s + 1) * 512) rest).
    { apply Hall. intros Hin. apply Hno.
      rewrite <- (firstn_skipn ((s + 1) * 512) rest).
      apply in_or_app. now left. }
    etransitivity.
    + apply IH. intros Hin. apply Hno.
      rewrite <- (firstn_skipn (length t) rest). apply in_or_app. now right.
    + rewrite length_skipn, Ht, length_firstn. lia.
Qed.

(** X3. A text without any period is cut without loss: the chunks
    concatenate to the text, whatever its length. *)
Theorem X3_text_without_period_is_kept (text : str) :
  ~ In PERIOD text -> concat (chunks text) = text.
Proof.
  intros Hno. pose proof (chunks_then_rest text) as E.
  assert (Hrest : chunks_rest text = []).
  { unfold chunks_rest. destruct (512 <? length text); [|reflexivity].
    unfold chunk_loop. apply length_zero_iff_nil.
    pose proof (@chunk_fold_rest_no_period
                  (length text / 512 + 1) 0 [] text Hno) as Hle.
    assert (Hgt : length text < 512 * S (length text / 512))
      by (apply Nat.mul_succ_div_gt; discriminate).
    apply Nat.le_0_r. etransitivity; [exact Hle|]. lia. }
  rewrite Hrest, app_nil_r in E. exact E.
Qed.

Lemma X3_text_without_period_is_kept_witness :
  concat (chunks (repeat 97%N 1025)) = repeat 97%N 1025.
Proof.
  apply X3_text_without_period_is_kept.
  intros Hin. apply repeat_spec in Hin. discriminate Hin.
Defined.

Lemma chunk_fold_rest_length (idx : list nat) :
  forall (texts : list str) (rest : str),
    length (snd (fold_left chunk_step idx (texts, rest))) <= length rest.
Proof.
  induction idx as [|i idx IH]; intros texts rest; cbn [fold_left].
  - cbn [snd]. lia.
  - destruct (chunk_step_shape texts rest i) as (t & -> & _).
    etransitivity; [apply IH|]. rewrite length_skipn. lia.
Qed.

(** X4. Whatever a long text loses starts at a period: when the loop
    ends, [rest] is empty or begins with a period, and the chunks
    concatenate to the text exactly when it is empty. *)
Theorem X4_lost_tail_starts_at_a_period (text : str) :
  512 < length text ->
  (chunks_rest text = [] \/ exists tl, chunks_rest text = PERIOD :: tl)
  /\ (concat (chunks text) = text <-> chunks_rest text = []).
Proof.
  intros Hlen. split.
  - unfold chunks_rest.
    destruct (Nat.ltb_spec 512 (length text)) as [_|Hle]; [|lia].
    unfold chunk_loop. rewrite Nat.add_1_r, seq_S, fold_left_app.
    cbn [Nat.add fold_left].
    pose proof (chunk_fold_rest_length (seq 0 (length text / 512)) [] text)
      as Hshort.
    destruct (fold_left chunk_step (seq 0 (length text / 512)) ([], text))
      as [texts rest]. cbn [snd] in Hshort.
    destruct (chunk_step_shape texts rest (length text / 512))
      as (t & -> & _ & _ & Hall & Hcut). cbn [snd].
    assert (Hgt : length text < 512 * S (length text / 512))
      by (apply Nat.mul_succ_div_gt; discriminate).
    assert (Hwin : firstn ((length text / 512 + 1) * 512) rest = rest)
      by (apply firstn_all2; lia).
    rewrite Hwin in Hall, Hcut.
    destruct (in_dec N.eq_dec PERIOD rest) as [Hin|Hout].
    + right. now apply Hcut.
    + left. rewrite (Hall Hout). apply skipn_all.
  - pose proof (chunks_then_rest text) as E. split.
    + intros Hc. rewrite Hc in E.
      apply (f_equal (@length N)) in E. rewrite length_app in E.
      apply length_zero_iff_nil. lia.
    + intros Hr. rewrite Hr, app_nil_r in E. exact E.
Qed.

Lemma X4_lost_tail_starts_at_a_period_witness :
  exists tl,
    chunks_rest (repeat 97%N 100 ++ [PERIOD] ++ repeat 98%N 412)
    = PERIOD :: tl.
Proof.
  destruct (@X4_lost_tail_starts_at_a_period
              (repeat 97%N 100 ++ [PERIOD] ++ repeat 98%N 412))
    as [[Hnil|Htl] _].
  - apply Nat.ltb_lt. vm_compute. reflexivity.
  - vm_compute in Hnil. discriminate Hnil.
  - exact Htl.
Defined.

Lemma skipn_keeps_last {A} (k : nat) (pre : list A) (x : A) :
  skipn k (pre ++ [x]) <> [] ->
  exists pre', skipn k (pre ++ [x]) = pre' ++ [x].
Proof.
  intros Hne. destruct (Nat.le_gt_cases k (length pre)) as [Hle|Hgt].
  - exists (skipn k pre). rewrite skipn_app.
    replace (k - length pre) with 0 by lia. reflexivity.
  - exfalso. apply Hne. apply skipn_all2. rewrite length_app. cbn. lia.
Qed.

Lemma chunk_step_keeps_final_period (texts : list str) (pre : str)
      (i : nat) :
  exists pre',
    snd (chunk_step (texts, pre ++ [PERIOD]) i) = pre' ++ [PERIOD].
Proof.
  destruct (chunk_step_shape texts (pre ++ [PERIOD]) i)
    as (t & Hstep & _ & _ & Hall & Hcut).
  cut (exists pre',
          skipn (length t) (pre ++ [PERIOD]) = pre' ++ [PERIOD]).
  { intros [pre' H]. exists pre'.
    exact (eq_trans (f_equal snd Hstep) H). }
  apply skipn_keeps_last.
  destruct (in_dec N.eq_dec PERIOD
                   (firstn ((i + 1) * 512) (pre ++ [PERIOD])))
    as [Hin|Hout].
  - destruct (Hcut Hin) as [tl ->]. discriminate.
  - rewrite (Hall Hout). intros Hnil.
    apply (f_equal (@length N)) in Hnil.
    rewrite length_skipn, length_firstn in Hnil. cbn [length] in Hnil.
    apply Hout. rewrite firstn_all2 by lia.
    apply in_or_app. right. now left.
Qed.

Lemma chunk_fold_keeps_final_period (idx : list nat) :
  forall (texts : list str) (pre : str),
  exists pre',
    snd (fold_left chunk_step idx (texts, pre ++ [PERIOD]))
    = pre' ++ [PERIOD].
Proof.
  induction idx as [|i idx IH]; intros texts pre; cbn [fold_left].
  - exists pre. reflexivity.
  - destruct (chunk_step_keeps_final_period texts pre i) as [pre1 H1].
    destruct (chunk_step (texts, pre ++ [PERIOD]) i) as [texts1 rest1].
    cbn [snd] in H1. subst rest1. apply IH.
Qed.

(** X5. A text of more than 512 characters that ends with a period is
    never cut without loss: the final period, at least, stays in [rest]
    and is missing from the chunks. *)
Theorem X5_final_period_is_lost (text pre : str) :
  512 < length text ->
  text = pre ++ [PERIOD] ->
  (exists pre', chunks_rest text = pre' ++ [PERIOD])
  /\ concat (chunks text) <> text.
Proof.
  intros Hlen ->.
  assert (Hrest : exists pre',
             chunks_rest (pre ++ [PERIOD]) = pre' ++ [PERIOD]).
  { unfold chunks_rest.
    destruct (Nat.ltb_spec 512 (length (pre ++ [PERIOD]))) as [_|Hle];
      [|lia].
    apply chunk_fold_keeps_final_period. }
  split; [exact Hrest|].
  destruct Hrest as [pre' Hrest]. intros Hc.
  pose proof (chunks_then_rest (pre ++ [PERIOD])) as E.
  rewrite Hc, Hrest in E. apply (f_equal (@length N)) in E.
  rewrite !length_app in E. cbn [length] in E. lia.
Qed.

Lemma X5_final_period_is_lost_witness :
  concat (chunks (repeat 97%N 600 ++ [PERIOD]))
  <> repeat 97%N 600 ++ [PERIOD].
Proof.
  apply (@X5_final_period_is_lost (repeat 97%N 600 ++ [PERIOD])
                                  (repeat 97%N 600)).
  - apply Nat.ltb_lt. vm_compute. reflexivity.
  - reflexivity.
Defined.

(* ================================================================== *)
(** * Normalisation of the OCR text *)

Lemma re_sub_noise_clean (text : str) (c : N) :
  In c (re_sub_noise text) -> is_noise c = false.
Proof.
  unfold re_sub_noise. rewrite in_map_iff. intros (d & <- & _).
  destruct (is_noise d) eqn:E; [reflexivity | exact E].
Qed.

Lemma re_sub_noise_fixed (text : str) :
  (forall c, In c text -> is_noise c = false) -> re_sub_noise text = text.
Proof.
  unfold re_sub_noise. induction text as [|c text IH]; intros Hclean;
    cbn [map]; [reflexivity|].
  rewrite (Hclean c) by now left.
  rewrite IH; [reflexivity|]. intros d Hd. apply Hclean. now right.
Qed.

(** X6. The substitution keeps the length of the text, leaves no
    newline, tab, bracket, slash or pipe in it, does not change a text
    that has none of them, and so changes nothing when applied twice. *)
Theorem X6_noise_characters_are_replaced (text : str) :
  length (re_sub_noise text) = length text
  /\ (forall c, In c [10; 9; 91; 93; 47; 124]%N ->
                ~ In c (re_sub_noise text))
  /\ ((forall c, In c [10; 9; 91; 93; 47; 124]%N -> ~ In c text) ->
      re_sub_noise text = text)
  /\ re_sub_noise (re_sub_noise text) = re_sub_noise text.
Proof.
  split; [|split; [|split]].
  - unfold re_sub_noise. apply length_map.
  - intros c Hc Hin. apply re_sub_noise_clean in Hin.
    unfold is_noise in Hin. rewrite <- not_true_iff_false in Hin.
    apply Hin. apply existsb_exists. exists c. split; [exact Hc|].
    apply N.eqb_refl.
  - intros Hnone. apply re_sub_noise_fixed. intros c Hc.
    apply not_true_iff_false. intros Hn. unfold is_noise in Hn.
    apply existsb_exists in Hn as (d & Hd & E). apply N.eqb_eq in E.
    subst d. exact (Hnone c Hd Hc).
  - apply re_sub_noise_fixed. apply re_sub_noise_clean.
Qed.

Lemma X6_noise_characters_are_replaced_witness :
  re_sub_noise (PyStr.lit "Hello world") = PyStr.lit "Hello world".
Proof.
  apply (proj1 (proj2 (proj2 (X6_noise_characters_are_replaced
                                (PyStr.lit "Hello world"))))).
  intros c Hc Hin. vm_compute in Hc, Hin.
  repeat (destruct Hc as [<-|Hc];
          [repeat (destruct Hin as [Hin|Hin]; [discriminate Hin|]);
           exact Hin|]).
  exact Hc.
Defined.

(* ================================================================== *)
(** * The flag after a page *)

Lemma block_body_flag_exact (M : Models) (page : ref) (r r' : bool)
      (line : block) (h h' : heap) :
  block_body M page r line h = Ok (r', h') ->
  r' = r || is_references_block M line.
Proof.
  unfold block_body, is_references_block.
  destruct (PyStr.eqb (type line) (PyStr.lit "title")); cbn [negb andb].
  - destruct (ocr_model M (img line)) as [|[title c] rest].
    + run_m. discriminate.
    + destruct (is_references_title M title); run_m;
        intros E; inv_ok E; [now rewrite orb_true_r | now rewrite orb_false_r].
  - rewrite orb_false_r.
    destruct (1 <? length (map fst (ocr_model M (img line)))).
    + destruct (quality_gate_rejects _).
      * run_m. intros E; inv_ok E. reflexivity.
      * destruct (bbox line) as [[[x0 y0] x1] y1]. run_m.
        destruct (render_block _ _ _ _) as [blk|e]; [|discriminate].
        destruct (setitem _ _ _ _ _ _ _ _) as [a'|e]; [|discriminate].
        intros E; inv_ok E. reflexivity.
    + run_m. intros E; inv_ok E. reflexivity.
Qed.

Lemma block_loop_flag_exact (M : Models) (page : ref)
      (blocks : list block) :
  forall (r r' : bool) (h h' : heap),
    block_loop M page r blocks h = Ok (r', h') ->
    r' = r || existsb (is_references_block M) blocks.
Proof.
  induction blocks as [|line blocks IH]; intros r r' h h';
    cbn [block_loop existsb].
  - run_m. intros E; inv_ok E. now rewrite orb_false_r.
  - unfold bind.
    destruct (block_body M page r line h) as [[r1 h1]|e] eqn:E1;
      [|discriminate].
    intros E2. apply block_body_flag_exact in E1. apply IH in E2.
    subst. now rewrite orb_assoc.
Qed.

(** X7. When [__translate_one_page] returns, the flag it returns is set
    exactly if it was set on entry or the page has a title block whose
    first recognised line reads "references" or "reference" up to case:
    body blocks, other titles and the translations never touch it. *)
Theorem X7_flag_after_a_page (M : Models) (image : grid) (r : bool)
        (h : heap) (im orig : ref) (r' : bool) (h' : heap) :
  __translate_one_page M image r h = Ok ((im, orig, r'), h') ->
  r' = r || existsb (is_references_block M) (layout_model M image).
Proof.
  rewrite translate_one_page_unfold.
  destruct (block_loop _ _ _ _ _) as [[r1 h1]|e] eqn:E; [|discriminate].
  intros E'; inv_ok E'. now apply block_loop_flag_exact in E.
Qed.

Lemma X7_flag_after_a_page_witness :
  exists h1 h2,
    __translate_one_page Example.models (Example.tag 1) false []
    = Ok ((0, 1, true), h1)
    /\ __translate_one_page Example.models (Example.tag 2) false []
       = Ok ((0, 1, false), h2).
Proof.
  destruct (__translate_one_page Example.models (Example.tag 1) false [])
    as [[[[im1 o1] r1] h1]|e] eqn:E1; [|vm_compute in E1; discriminate].
  destruct (__translate_one_page Example.models (Example.tag 2) false [])
    as [[[[im2 o2] r2] h2]|e] eqn:E2; [|vm_compute in E2; discriminate].
  pose proof (X7_flag_after_a_page _ _ _ _ E1) as F1.
  pose proof (X7_flag_after_a_page _ _ _ _ E2) as F2.
  vm_compute in F1, F2. subst r1 r2.
  exists h1, h2. vm_compute in E1, E2. inv_ok E1. inv_ok E2.
  split; reflexivity.
Defined.

(* ================================================================== *)
(** * Compositing: what a block draws, and where *)

Lemma nth_via_nth_error {A} (l : list A) (k : nat) (d : A) :
  nth k l d = match nth_error l k with Some x => x | None => d end.
Proof.
  revert k; induction l as [|x l IH]; intros [|k]; cbn; auto.
Qed.

Lemma mapi_from_length {A B} (f : nat -> A -> B) (l : list A) :
  forall s, length (mapi_from s f l) = length l.
Proof.
  induction l as [|x l IH]; intros s; cbn [mapi_from length]; auto.
Qed.

Lemma nth_error_mapi_from {A B} (f : nat -> A -> B) (l : list A) :
  forall s k,
    nth_error (mapi_from s f l) k = option_map (f (s + k)) (nth_error l k).
Proof.
  induction l as [|x l IH]; intros s [|k]; cbn [mapi_from nth_error];
    auto.
  - cbn. now rewrite Nat.add_0_r.
  - rewrite IH. now rewrite Nat.add_succ_comm.
Qed.

Lemma nth_update_same {A} (k : nat) (x d : A) (l : list A) :
  k < length l -> nth k (update k x l) d = x.
Proof.
  revert k; induction l as [|y l IH]; intros [|k] Hk;
    cbn [length update nth] in *.
  - lia.
  - lia.
  - reflexivity.
  - apply IH. lia.
Qed.

Lemma nth_map_seq {B} (f : nat -> B) (len n : nat) (d : B) :
  n < len -> nth n (map f (seq 0 len)) d = f n.
Proof.
  intros Hn. rewrite (nth_indep _ d (f 0)) by now rewrite length_map, length_seq.
  rewrite map_nth, seq_nth by exact Hn. reflexivity.
Qed.

Lemma slice_bound_le (n : nat) (k : Z) : slice_bound n k <= n.
Proof.
  unfold slice_bound.
  destruct (Z.ltb_spec k 0); lia.
Qed.

Lemma slice_bound_inside (n : nat) (k : Z) :
  (0 <= k <= Z.of_nat n)%Z -> slice_bound n k = Z.to_nat k.
Proof.
  intros Hk. unfold slice_bound.
  destruct (Z.ltb_spec k 0); [lia|]. f_equal. apply Z.min_l. lia.
Qed.

(** The two loops of [setitem], row by row and pixel by pixel. *)
Definition setitem_pixel (cs ce bh bw rs : nat) (blk : grid) (r c : nat)
           (p : pixel) : pixel :=
  if in_slice cs ce c then
    nth (if bw =? 1 then 0 else c - cs)
        (nth (if bh =? 1 then 0 else r - rs) blk []) p
  else p.

Lemma setitem_rows (a a' : grid) (y0 y1 x0 x1 : Z) (bh bw : nat)
      (blk : grid) :
  setitem a y0 y1 x0 x1 bh bw blk = Ok a' ->
  a' = mapi_from 0
         (fun r row =>
            if in_slice (slice_bound (height a) y0)
                        (slice_bound (height a) y1) r
            then mapi_from 0
                   (setitem_pixel (slice_bound (width a) x0)
                                  (slice_bound (width a) x1) bh bw
                                  (slice_bound (height a) y0) blk r)
                   row
            else row)
         a.
Proof.
  unfold setitem. destruct (_ && _); [|discriminate].
  intros E; inv_ok E. reflexivity.
Qed.

Lemma setitem_shape (a a' : grid) (y0 y1 x0 x1 : Z) (bh bw : nat)
      (blk : grid) :
  setitem a y0 y1 x0 x1 bh bw blk = Ok a' ->
  height a' = height a /\ width a' = width a.
Proof.
  intros E. apply setitem_rows in E. subst a'. split.
  - apply mapi_from_length.
  - destruct a as [|row a]; cbn [mapi_from width]; [reflexivity|].
    destruct (in_slice _ _ 0); [apply mapi_from_length | reflexivity].
Qed.

Lemma setitem_pixel_at (a a' : grid) (y0 y1 x0 x1 : Z) (bh bw : nat)
      (blk : grid) (r c : nat) :
  setitem a y0 y1 x0 x1 bh bw blk = Ok a' ->
  pixel_at a' r c
  = if in_bbox a (x0, y0, x1, y1) r c
    then option_map
           (fun p =>
              nth (if bw =? 1 then 0 else c - slice_bound (width a) x0)
                  (nth (if bh =? 1 then 0
                        else r - slice_bound (height a) y0) blk []) p)
           (pixel_at a r c)
    else pixel_at a r c.
Proof.
  intros E. apply setitem_rows in E. subst a'.
  unfold pixel_at, in_bbox.
  rewrite (nth_via_nth_error (mapi_from _ _ _)), nth_error_mapi_from.
  rewrite (nth_via_nth_error a). cbn [Nat.add].
  destruct (nth_error a r) as [row|]; cbn [option_map].
  - destruct (in_slice (slice_bound (height a) y0) _ r); cbn [andb];
      [|reflexivity].
    rewrite nth_error_mapi_from. cbn [Nat.add]. unfold setitem_pixel.
    destruct (in_slice (slice_bound (width a) x0) _ c).
    + reflexivity.
    + destruct (nth_error row c); reflexivity.
  - destruct (_ && _); destruct c; reflexivity.
Qed.

Section Compositing.

Variable M : Models.

(** An iteration keeps the shape of the page array and every pixel
    outside the slice of the block's bounding box. *)
Lemma block_body_pixels (page : ref) (r r' : bool) (line : block)
      (h h' : heap) :
  page < length h ->
  block_body M page r line h = Ok (r', h') ->
  length h' = length h
  /\ height (nth page h' []) = height (nth page h [])
  /\ width (nth page h' []) = width (nth page h [])
  /\ forall row col,
       PyStr.eqb (type line) (PyStr.lit "title") = true
       \/ in_bbox (nth page h []) (bbox line) row col = false ->
       pixel_at (nth page h' []) row col
       = pixel_at (nth page h []) row col.
Proof.
  intros Hpage. unfold block_body.
  destruct (PyStr.eqb (type line) (PyStr.lit "title")) eqn:Et;
    cbn [negb].
  - destruct (ocr_model M (img line)) as [|[title c] rest].
    + run_m. discriminate.
    + destruct (is_references_title M title); run_m;
        intros E; inv_ok E; auto.
  - destruct (1 <? length (map fst (ocr_model M (img line)))).
    + destruct (quality_gate_rejects _).
      * run_m. intros E; inv_ok E. auto.
      * destruct (bbox line) as [[[x0 y0] x1] y1]. run_m.
        destruct (render_block _ _ _ _) as [blk|e]; [|discriminate].
        destruct (setitem _ _ _ _ _ _ _ _) as [a'|e] eqn:Es;
          [|discriminate].
        intros E; inv_ok E. rewrite nth_update_same by exact Hpage.
        pose proof (setitem_shape _ _ _ _ _ _ _ _ Es) as [Hh Hw].
        repeat split; auto using update_length.
        intros row col [Habs|Hout]; [discriminate|].
        rewrite (setitem_pixel_at _ _ _ _ _ _ _ _ row col Es), Hout.
        reflexivity.
    + run_m. intros E; inv_ok E. auto.
Qed.

Lemma in_bbox_shape (g g' : grid) (bb : Z * Z * Z * Z) (r c : nat) :
  height g' = height g -> width g' = width g ->
  in_bbox g' bb r c = in_bbox g bb r c.
Proof.
  intros Hh Hw. unfold in_bbox. destruct bb as [[[x0 y0] x1] y1].
  now rewrite Hh, Hw.
Qed.

Lemma block_loop_pixels (page : ref) (blocks : list block) :
  forall (r r' : bool) (h h' : heap),
    page < length h ->
    block_loop M page r blocks h = Ok (r', h') ->
    height (nth page h' []) = height (nth page h [])
    /\ width (nth page h' []) = width (nth page h [])
    /\ forall row col,
         (forall line,
             In line blocks ->
             PyStr.eqb (type line) (PyStr.lit "title") = false ->
             in_bbox (nth page h []) (bbox line) row col = false) ->
         pixel_at (nth page h' []) row col
         = pixel_at (nth page h []) row col.
Proof.
  induction blocks as [|line blocks IH]; intros r r' h h' Hpage;
    cbn [block_loop].
  - run_m. intros E; inv_ok E. auto.
  - unfold bind.
    destruct (block_body M page r line h) as [[r1 h1]|e] eqn:E1;
      [|discriminate].
    intros E2.
    apply block_body_pixels in E1 as (L1 & H1 & W1 & P1); [|exact Hpage].
    apply IH in E2 as (H2 & W2 & P2); [|lia].
    repeat split; try congruence.
    intros row col Hout. rewrite P2, P1; [reflexivity| |].
    + destruct (PyStr.eqb (type line) (PyStr.lit "title")) eqn:Et;
        [now left|]. right. apply Hout; [now left | exact Et].
    + intros l Hl Ht. rewrite (@in_bbox_shape _ _ (bbox l) row col H1 W1).
      apply Hout; [now right | exact Ht].
Qed.

End Compositing.

(** X8. The translated page has the shape of the input page, and a pixel
    that lies in the bounding-box slice of no body block is the pixel of
    the input page: drawing is confined to the boxes of the blocks. *)
Theorem X8_pixels_outside_the_blocks_are_kept (M : Models) (image : grid)
        (r : bool) (h : heap) (im orig : ref) (r' : bool) (h' : heap) :
  __translate_one_page M image r h = Ok ((im, orig, r'), h') ->
  height (nth im h' []) = height image
  /\ width (nth im h' []) = width image
  /\ forall row col,
       (forall line,
           In line (layout_model M image) ->
           PyStr.eqb (type line) (PyStr.lit "title") = false ->
           in_bbox image (bbox line) row col = false) ->
       pixel_at (nth im h' []) row col = pixel_at image row col.
Proof.
  rewrite translate_one_page_unfold.
  destruct (block_loop _ _ _ _ _) as [[r1 h1]|e] eqn:E; [|discriminate].
  intros E'; inv_ok E'.
  apply block_loop_pixels in E; [|rewrite !length_app; cbn; lia].
  replace (nth (length h) ((h ++ [image]) ++ [image]) []) with image in E
    by (rewrite <- app_assoc; cbn; now rewrite nth_middle).
  exact E.
Qed.

Lemma X8_pixels_outside_the_blocks_are_kept_witness :
  exists h',
    __translate_one_page Example.models (Example.tag 2) false []
    = Ok ((0, 1, false), h')
    /\ pixel_at (nth 0 h' []) 1 0 = Some BLACK.
Proof.
  eexists. split; [vm_compute; reflexivity|].
  pose proof (@X8_pixels_outside_the_blocks_are_kept Example.models
                (Example.tag 2) false [] 0 1 false _ eq_refl)
    as (_ & _ & Hkeep).
  rewrite Hkeep; [reflexivity|].
  intros line [<-|[]] _. reflexivity.
Defined.

Lemma in_bbox_within (g : grid) (x0 y0 x1 y1 : Z) (r c : nat) :
  bbox_within g (x0, y0, x1, y1) ->
  in_bbox g (x0, y0, x1, y1) r c
  = in_slice (Z.to_nat y0) (Z.to_nat y1) r
    && in_slice (Z.to_nat x0) (Z.to_nat x1) c.
Proof.
  unfold bbox_within, in_bbox. intros (Hx & Hx1 & Hy & Hy1).
  rewrite !slice_bound_inside by lia. reflexivity.
Qed.

Lemma setitem_within (a : grid) (x0 y0 x1 y1 : Z) (blk : grid) :
  bbox_within a (x0, y0, x1, y1) ->
  exists a',
    setitem a y0 y1 x0 x1 (Z.to_nat (y1 - y0)) (Z.to_nat (x1 - x0)) blk
    = Ok a'.
Proof.
  unfold bbox_within. intros (Hx & Hx1 & Hy & Hy1). unfold setitem.
  rewrite !slice_bound_inside by lia.
  replace (Z.to_nat (y1 - y0) =? Z.to_nat y1 - Z.to_nat y0) with true
    by (symmetry; apply Nat.eqb_eq; lia).
  replace (Z.to_nat (x1 - x0) =? Z.to_nat x1 - Z.to_nat x0) with true
    by (symmetry; apply Nat.eqb_eq; lia).
  cbn [orb andb]. eexists; reflexivity.
Qed.

Lemma render_block_within (M : Models) (text : str) (bw bh : Z) :
  (0 <= bw)%Z -> (0 <= bh)%Z ->
  render_block M text bw bh
  = Ok (map (fun r => map (fun c => draw_text M text r c)
                          (seq 0 (Z.to_nat bw)))
            (seq 0 (Z.to_nat bh))).
Proof.
  intros Hw Hh. unfold render_block.
  destruct (Z.ltb_spec bw 0); [lia|]. destruct (Z.ltb_spec bh 0); [lia|].
  reflexivity.
Qed.

Section Drawing.

Variable M : Models.

(** A body block with at least two lines, a translation that passes the
    gate and a box within the page is drawn: the pixels of the page in
    the box become those of the rendered text, the others stay. *)
Lemma block_body_draws (page : ref) (r : bool) (line : block) (h : heap)
      (x0 y0 x1 y1 : Z) :
  page < length h ->
  PyStr.eqb (type line) (PyStr.lit "title") = false ->
  1 < length (ocr_model M (img line)) ->
  quality_gate_rejects (translated_text_of M line) = false ->
  bbox line = (x0, y0, x1, y1) ->
  bbox_within (nth page h []) (x0, y0, x1, y1) ->
  exists a',
    block_body M page r line h = Ok (r, update page a' h)
    /\ forall row col p,
         pixel_at (nth page h []) row col = Some p ->
         pixel_at a' row col
         = Some (if in_slice (Z.to_nat y0) (Z.to_nat y1) row
                    && in_slice (Z.to_nat x0) (Z.to_nat x1) col
                 then draw_text M
                        (fw_fill M (translated_text_of M line)
                                 (wrap_width x0 x1))
                        (row - Z.to_nat y0) (col - Z.to_nat x0)
                 else p).
Proof.
  intros Hpage Et Hlines Hgate Hbbox Hin.
  pose proof Hin as (Hx & Hx1 & Hy & Hy1).
  unfold block_body. rewrite Et. cbn [negb]. rewrite length_map.
  destruct (Nat.ltb_spec 1 (length (ocr_model M (img line)))) as [_|Hle];
    [|lia].
  unfold translated_text_of in Hgate. rewrite Hgate, Hbbox. run_m.
  fold (wrap_width x0 x1).
  rewrite render_block_within by lia.
  match goal with
  | |- context [setitem _ _ _ _ _ _ _ ?b] =>
      destruct (@setitem_within _ _ _ _ _ b Hin) as [a' Hset]
  end.
  rewrite Hset.
  exists a'. split; [reflexivity|].
  intros row col p Hp.
  rewrite (@setitem_pixel_at _ _ _ _ _ _ _ _ _ row col Hset).
  rewrite (@in_bbox_within _ _ _ _ _ row col Hin), Hp. cbn [option_map].
  rewrite !slice_bound_inside by lia.
  destruct (in_slice (Z.to_nat y0) (Z.to_nat y1) row) eqn:Er;
    [|reflexivity].
  destruct (in_slice (Z.to_nat x0) (Z.to_nat x1) col) eqn:Ec;
    [|reflexivity].
  cbn [andb]. f_equal.
  unfold in_slice in Er, Ec.
  apply andb_true_iff in Er as [Er1 Er2]. apply andb_true_iff in Ec as [Ec1 Ec2].
  apply Nat.leb_le in Er1, Ec1. apply Nat.ltb_lt in Er2, Ec2.
  replace (if Z.to_nat (y1 - y0) =? 1 then 0 else row - Z.to_nat y0)
    with (row - Z.to_nat y0)
    by (destruct (Nat.eqb_spec (Z.to_nat (y1 - y0)) 1); lia).
  replace (if Z.to_nat (x1 - x0) =? 1 then 0 else col - Z.to_nat x0)
    with (col - Z.to_nat x0)
    by (destruct (Nat.eqb_spec (Z.to_nat (x1 - x0)) 1); lia).
  rewrite nth_map_seq by lia. rewrite nth_map_seq by lia. reflexivity.
Qed.

End Drawing.

Lemma eqb_title_false (line : block) :
  type line <> PyStr.lit "title" ->
  PyStr.eqb (type line) (PyStr.lit "title") = false.
Proof.
  intros Hne. apply not_true_iff_false. rewrite PyStr_eqb_eq. exact Hne.
Qed.

(** X9. A body block with at least two recognised lines, a translation
    that passes the gate and a bounding box within the page does not
    raise: it overwrites exactly the pixels of the box, with the
    rendering of [fw_fill] of the translated text at width
    [(x1 - x0) quot 18 - 1], and leaves the flag as it was. *)
Theorem X9_accepted_block_is_drawn (M : Models) (page : ref) (r : bool)
        (line : block) (h : heap) (x0 y0 x1 y1 : Z) :
  page < length h ->
  type line <> PyStr.lit "title" ->
  1 < length (ocr_model M (img line)) ->
  quality_gate_rejects (translated_text_of M line) = false ->
  bbox line = (x0, y0, x1, y1) ->
  bbox_within (nth page h []) (x0, y0, x1, y1) ->
  exists h',
    block_body M page r line h = Ok (r, h')
    /\ length h' = length h
    /\ forall row col p,
         pixel_at (nth page h []) row col = Some p ->
         pixel_at (nth page h' []) row col
         = Some (if in_slice (Z.to_nat y0) (Z.to_nat y1) row
                    && in_slice (Z.to_nat x0) (Z.to_nat x1) col
                 then draw_text M
                        (fw_fill M (translated_text_of M line)
                                 (Z.quot (x1 - x0) 18 - 1)%Z)
                        (row - Z.to_nat y0) (col - Z.to_nat x0)
                 else p).
Proof.
  intros Hpage Hne Hlines Hgate Hbbox Hin.
  destruct (@block_body_draws M page r line h x0 y0 x1 y1 Hpage
              (@eqb_title_false line Hne) Hlines Hgate Hbbox Hin)
    as (a' & Hrun & Hpix).
  exists (update page a' h). split; [exact Hrun|].
  split; [apply update_length|].
  rewrite nth_update_same by exact Hpage. exact Hpix.
Qed.

Lemma X9_accepted_block_is_drawn_witness :
  exists h',
    block_body Example.models 0 false Example.body_block [Example.tag 2]
    = Ok (false, h')
    /\ pixel_at (nth 0 h' []) 0 1 = Some BLACK
    /\ pixel_at (nth 0 h' []) 1 0 = Some BLACK.
Proof.
  assert (Hne : type Example.body_block <> PyStr.lit "title")
    by (vm_compute; discriminate).
  assert (Hin : bbox_within (nth 0 [Example.tag 2] []) (0, 0, 2, 1)%Z)
    by (vm_compute; intuition discriminate).
  assert (Hpage : 0 < length [Example.tag 2]) by (cbn; lia).
  assert (Hlines : 1 < length (ocr_model Example.models
                                         (img Example.body_block)))
    by (vm_compute; lia).
  destruct (@X9_accepted_block_is_drawn Example.models 0 false
              Example.body_block [Example.tag 2] 0%Z 0%Z 2%Z 1%Z
              Hpage Hne Hlines eq_refl eq_refl Hin)
    as (h' & Hrun & _ & Hpix).
  exists h'. split; [exact Hrun|]. split.
  - rewrite (Hpix 0 1 WHITE eq_refl). reflexivity.
  - rewrite (Hpix 1 0 BLACK eq_refl). reflexivity.
Defined.

Lemma all_artifacts_empty (M : Models) (text : str) :
  (forall t, In t (chunks text) ->
             PyStr.startswith (translate_model M t) WEIRD_PREFIX = true) ->
  __translate M text = [].
Proof.
  intros Hall. unfold __translate. rewrite translate_loop_filter.
  cbn [app]. induction (chunks text) as [|t ts IH]; [reflexivity|].
  cbn [map filter]. rewrite (Hall t) by now left. cbn [negb].
  apply IH. intros t' Ht'. apply Hall. now right.
Qed.

(** X10. When the translation of every chunk of a body block starts
    with the artifact prefix, the translated text is empty, the gate
    lets it through, and the block is not skipped: with at least two
    recognised lines and a box within the page, the pixels of the box
    are overwritten with the rendering of [fw_fill] of the empty
    text. *)
Theorem X10_artifact_only_block_is_overwritten (M : Models) (page : ref)
        (r : bool) (line : block) (h : heap) (x0 y0 x1 y1 : Z) :
  page < length h ->
  type line <> PyStr.lit "title" ->
  1 < length (ocr_model M (img line)) ->
  (forall t,
      In t (chunks (re_sub_noise
                      (PyStr.join (PyStr.lit " ")
                                  (map fst (ocr_model M (img line)))))) ->
      PyStr.startswith (translate_model M t) WEIRD_PREFIX = true) ->
  bbox line = (x0, y0, x1, y1) ->
  bbox_within (nth page h []) (x0, y0, x1, y1) ->
  translated_text_of M line = []
  /\ exists h',
      block_body M page r line h = Ok (r, h')
      /\ forall row col p,
           pixel_at (nth page h []) row col = Some p ->
           in_slice (Z.to_nat y0) (Z.to_nat y1) row
           && in_slice (Z.to_nat x0) (Z.to_nat x1) col = true ->
           pixel_at (nth page h' []) row col
           = Some (draw_text M (fw_fill M [] (Z.quot (x1 - x0) 18 - 1)%Z)
                             (row - Z.to_nat y0) (col - Z.to_nat x0)).
Proof.
  intros Hpage Hne Hlines Hall Hbbox Hin.
  assert (Hempty : translated_text_of M line = [])
    by (apply all_artifacts_empty; exact Hall).
  split; [exact Hempty|].
  assert (Hgate : quality_gate_rejects (translated_text_of M line) = false)
    by (rewrite Hempty; reflexivity).
  destruct (@block_body_draws M page r line h x0 y0 x1 y1 Hpage
              (@eqb_title_false line Hne) Hlines Hgate Hbbox Hin)
    as (a' & Hrun & Hpix).
  exists (update page a' h). split; [exact Hrun|].
  intros row col p Hp Hbox.
  rewrite nth_update_same by exact Hpage.
  rewrite (Hpix row col p Hp), Hbox, Hempty. reflexivity.
Qed.

Lemma X10_artifact_only_block_is_overwritten_witness :
  exists h',
    block_body Example.models 0 false Example.weird_block [Example.tag 2]
    = Ok (false, h')
    /\ pixel_at (nth 0 [Example.tag 2] []) 1 0 = Some BLACK
    /\ pixel_at (nth 0 h' []) 1 0 = Some WHITE.
Proof.
  assert (Hne : type Example.weird_block <> PyStr.lit "title")
    by (vm_compute; discriminate).
  assert (Hin : bbox_within (nth 0 [Example.tag 2] []) (0, 1, 2, 2)%Z)
    by (vm_compute; intuition discriminate).
  assert (Hpage : 0 < length [Example.tag 2]) by (cbn; lia).
  assert (Hlines : 1 < length (ocr_model Example.models
                                         (img Example.weird_block)))
    by (vm_compute; lia).
  assert (Hall : forall t,
             In t (chunks (re_sub_noise
                             (PyStr.join (PyStr.lit " ")
                                (map fst (ocr_model Example.models
                                            (img Example.weird_block)))))) ->
             PyStr.startswith (translate_model Example.models t)
                              WEIRD_PREFIX = true).
  { vm_compute. intros t [<-|[]]. reflexivity. }
  destruct (@X10_artifact_only_block_is_overwritten Example.models 0 false
              Example.weird_block [Example.tag 2] 0%Z 1%Z 2%Z 2%Z
              Hpage Hne Hlines Hall eq_refl Hin)
    as (_ & h' & Hrun & Hpix).
  exists h'. split; [exact Hrun|]. split; [reflexivity|].
  rewrite (Hpix 1 0 BLACK eq_refl eq_refl). reflexivity.
Defined.

(* ================================================================== *)
(** * When a page, and a document, are processed to the end *)

Lemma block_ok_shape (M : Models) (g g' : grid) (line : block) :
  height g' = height g -> width g' = width g ->
  block_ok M g line -> block_ok M g' line.
Proof.
  intros Hh Hw. unfold block_ok, bbox_within.
  destruct (PyStr.eqb (type line) (PyStr.lit "title")); [auto|].
  destruct (bbox line) as [[[x0 y0] x1] y1]. now rewrite Hh, Hw.
Qed.

Section Totality.

Variable M : Models.

Lemma block_body_total (page : ref) (r : bool) (line : block) (h : heap) :
  page < length h ->
  block_ok M (nth page h []) line ->
  exists r' h', block_body M page r line h = Ok (r', h').
Proof.
  intros Hpage Hok. unfold block_ok in Hok.
  destruct (PyStr.eqb (type line) (PyStr.lit "title")) eqn:Et.
  - apply PyStr_eqb_eq in Et. rewrite title_block_body by exact Et.
    destruct (ocr_model M (img line)) as [|[title c] rest];
      [congruence|]. eauto.
  - assert (Hne : type line <> PyStr.lit "title").
    { intros E. rewrite E, PyStr_eqb_refl in Et. discriminate. }
    destruct (Nat.ltb_spec 1 (length (ocr_model M (img line))))
      as [Hlines|Hfew].
    + destruct (quality_gate_rejects (translated_text_of M line)) eqn:Eg.
      * exists r, h. now apply rejected_skip.
      * destruct (bbox line) as [[[x0 y0] x1] y1] eqn:Eb.
        destruct (@block_body_draws M page r line h x0 y0 x1 y1
                    Hpage Et Hlines Eg Eb Hok) as (a' & Hrun & _).
        eauto.
    + exists r, h. apply few_lines_skip; [exact Hne | lia].
Qed.

Lemma block_loop_total (page : ref) (blocks : list block) :
  forall (r : bool) (h : heap),
    page < length h ->
    Forall (block_ok M (nth page h [])) blocks ->
    exists r' h', block_loop M page r blocks h = Ok (r', h').
Proof.
  induction blocks as [|line blocks IH]; intros r h Hpage Hall;
    cbn [block_loop].
  - run_m. eauto.
  - inversion Hall as [|l ls Hline Hrest]; subst.
    destruct (@block_body_total page r line h Hpage Hline)
      as (r1 & h1 & E1).
    unfold bind. rewrite E1.
    pose proof (@block_body_pixels M page r r1 line h h1 Hpage E1)
      as (L1 & H1 & W1 & _).
    apply IH; [lia|].
    eapply Forall_impl; [|exact Hrest].
    intros l. now apply block_ok_shape.
Qed.

Lemma translate_one_page_total (image : grid) (r : bool) (h : heap) :
  Forall (block_ok M image) (layout_model M image) ->
  exists r' h',
    __translate_one_page M image r h
    = Ok ((length h, S (length h), r'), h').
Proof.
  intros Hall. rewrite translate_one_page_unfold.
  destruct (@block_loop_total (length h) (layout_model M image) r
              ((h ++ [image]) ++ [image])) as (r' & h' & E).
  - rewrite !length_app. cbn. lia.
  - replace (nth (length h) ((h ++ [image]) ++ [image]) []) with image
      by (rewrite <- app_assoc; cbn; now rewrite nth_middle).
    exact Hall.
  - rewrite E. eauto.
Qed.

End Totality.

(** X11. [__translate_one_page] runs to its end, whatever the heap and
    the flag, on every page whose title blocks all have a recognised
    line and whose other blocks all have their bounding box within the
    page ([0 <= x0 <= x1 <= width], [0 <= y0 <= y1 <= height]); it then
    returns the two arrays it has allocated at the end of the heap. *)
Theorem X11_well_formed_page_is_processed (M : Models) (image : grid)
        (r : bool) (h : heap) :
  Forall (block_ok M image) (layout_model M image) ->
  exists r' h',
    __translate_one_page M image r h
    = Ok ((length h, S (length h), r'), h')
    /\ length h' = S (S (length h)).
Proof.
  intros Hall.
  destruct (@translate_one_page_total M image r h Hall) as (r' & h' & E).
  exists r', h'. split; [exact E|].
  rewrite translate_one_page_unfold in E.
  destruct (block_loop _ _ _ _ _) as [[r1 h1]|e] eqn:Eloop; [|discriminate].
  inv_ok E. apply block_loop_frame in Eloop as (L & _).
  rewrite L, !length_app. cbn. lia.
Qed.

Lemma X11_well_formed_page_is_processed_witness :
  exists r' h',
    __translate_one_page Example.models (Example.tag 1) false []
    = Ok ((0, 1, r'), h')
    /\ length h' = 2.
Proof.
  apply (@X11_well_formed_page_is_processed Example.models
           (Example.tag 1) false []).
  repeat constructor; vm_compute; intuition discriminate.
Defined.

(* ================================================================== *)
(** * File names *)

Lemma digits_uint_uint_str (u : Decimal.uint) :
  digits_uint (uint_str u) = u.
Proof.
  induction u as [|u IH|u IH|u IH|u IH|u IH|u IH|u IH|u IH|u IH|u IH];
    cbn [uint_str digits_uint]; [reflexivity|..];
    rewrite IH; reflexivity.
Qed.

Lemma page_index_of_zeros (k : nat) (s : str) :
  page_index_of (repeat (digit_char 0) k ++ s) = page_index_of s.
Proof.
  induction k as [|k IH]; cbn [repeat app]; [reflexivity|].
  unfold page_index_of in *. cbn [digits_uint].
  change (digit_char 0) with 48%N. cbv iota beta. exact IH.
Qed.

Lemma page_index_of_format_03 (i : nat) : page_index_of (format_03 i) = i.
Proof.
  unfold format_03. rewrite page_index_of_zeros.
  unfold page_index_of. rewrite digits_uint_uint_str.
  apply DecimalNat.Unsigned.of_to.
Qed.

Lemma output_path_injective (output_dir : str) (i j : nat) :
  output_path output_dir i = output_path output_dir j -> i = j.
Proof.
  unfold output_path. intros E.
  apply app_inv_head, app_inv_tail in E.
  rewrite <- (page_index_of_format_03 i), <- (page_index_of_format_03 j).
  now rewrite E.
Qed.

(** X12. The digits of a page's file name read back as the page index,
    the name has at least three digits, and so two different pages are
    never written to the same path, also beyond page 999. *)
Theorem X12_page_paths_are_distinct (output_dir : str) (i j : nat) :
  i <> j ->
  output_path output_dir i <> output_path output_dir j
  /\ page_index_of (format_03 i) = i
  /\ 3 <= length (format_03 i).
Proof.
  intros Hne. split; [|split].
  - intros E. apply Hne. eapply output_path_injective; eauto.
  - apply page_index_of_format_03.
  - unfold format_03. rewrite length_app, repeat_length. lia.
Qed.

Lemma X12_page_paths_are_distinct_witness :
  output_path Example.output_dir 1000 <> output_path Example.output_dir 100.
Proof.
  apply (@X12_page_paths_are_distinct Example.output_dir 1000 100).
  discriminate.
Defined.

(* ================================================================== *)
(** * The merged document *)

Lemma read_file_in (files : list (str * page_file)) (p : str) :
  In p (map fst files) -> exists f, read_file files p = Some f.
Proof.
  induction files as [|[q g] files IH]; cbn [read_file map fst In];
    [contradiction|].
  intros [E|Hin].
  - subst q. destruct (read_file files p); [eauto|].
    rewrite PyStr_eqb_refl. eauto.
  - destruct (IH Hin) as [f ->]. eauto.
Qed.

Lemma merge_loop_total (files : list (str * page_file))
      (paths : list str) :
  (forall p, In p paths -> In p (map fst files)) ->
  forall acc,
  exists merged,
    merge_loop files paths acc = Ok merged
    /\ length merged = length acc + length paths.
Proof.
  induction paths as [|p paths IH]; intros Hin acc; cbn [merge_loop].
  - exists acc. split; [reflexivity | cbn; lia].
  - destruct (@read_file_in files p) as [f ->]; [apply Hin; now left|].
    destruct (IH (fun q Hq => Hin q (or_intror Hq)) (acc ++ [f]))
      as (merged & -> & Hlen).
    exists merged. split; [reflexivity|].
    rewrite Hlen, length_app. cbn. lia.
Qed.

Lemma sorted_perm (l : list str) : Permutation l (sorted l).
Proof.
  destruct (@sorted_fold_spec l [] (Sorted_nil _)) as [_ Hperm].
  now rewrite app_nil_r in Hperm.
Qed.

Lemma reads_of_own_keys (files : list (str * page_file)) :
  NoDup (map fst files) ->
  map (read_file files) (map fst files) = map Some (map snd files).
Proof.
  intros Hnd. rewrite !map_map. apply map_ext_in.
  intros [p f] Hin. cbn [fst snd]. now apply read_file_present.
Qed.

Lemma map_Some_inj {A} (l l' : list A) :
  map Some l = map Some l' -> l = l'.
Proof.
  revert l'; induction l as [|x l IH]; intros [|y l'] E; cbn in E;
    try discriminate; [reflexivity|].
  inv_ok E. f_equal. now apply IH.
Qed.

Section MergedDocument.

Variable M : Models.
Variable output_dir : str.

Lemma merge_after_loop (images : list grid) (st : loop_state) (h : heap) :
  page_loop M output_dir 0 images initial_state [] = Ok (st, h) ->
  exists merged,
    __merge_pdfs (disk st) (pdf_files st) = Ok merged
    /\ Permutation merged (map snd (disk st))
    /\ NoDup (pdf_files st)
    /\ length (pdf_files st) = length images.
Proof.
  intros Eloop. apply page_loop_files in Eloop as [Hp Hd].
  cbn [initial_state pdf_files disk map app] in Hp, Hd.
  assert (Hnd : NoDup (pdf_files st)).
  { rewrite Hp. apply NoDup_map_NoDup_ForallPairs; [|apply seq_NoDup].
    intros i j _ _. apply output_path_injective. }
  destruct (@merge_loop_total (disk st) (sorted (pdf_files st))) with (acc := @nil page_file)
    as (merged & Emerge & _).
  { intros p Hin. rewrite Hd, <- Hp.
    eapply Permutation_in; [symmetry; apply sorted_perm | exact Hin]. }
  exists merged. split; [exact Emerge|]. split; [|split].
  - apply merge_loop_reads in Emerge. cbn [map app] in Emerge.
    assert (Hperm : Permutation (map Some merged)
                                (map Some (map snd (disk st)))).
    { rewrite Emerge, <- reads_of_own_keys by (rewrite Hd, <- Hp; exact Hnd).
      rewrite Hd, <- Hp. apply Permutation_map. symmetry.
      apply sorted_perm. }
    symmetry in Hperm.
    apply Permutation_map_inv in Hperm as (l3 & E3 & P3).
    apply map_Some_inj in E3. subst l3. now symmetry.
  - exact Hnd.
  - rewrite Hp, length_map, length_seq. reflexivity.
Qed.

End MergedDocument.

(** X13. For a document of any length, once the page loop has written
    the pages the merge cannot fail, and it neither loses nor repeats a
    page: the merged document is a rearrangement of the files written,
    one per page of the input. *)
Theorem X13_merge_keeps_every_page (M : Models) (output_dir : str)
        (images : list grid) (st : loop_state) (h : heap) :
  page_loop M output_dir 0 images initial_state [] = Ok (st, h) ->
  exists merged,
    _translate_pdf M images output_dir = Ok (st, merged)
    /\ Permutation merged (map snd (disk st))
    /\ length merged = length images
    /\ NoDup (pdf_files st).
Proof.
  intros Eloop.
  destruct (@merge_after_loop M output_dir images st h Eloop)
    as (merged & Em & Hperm & Hnd & Hlen).
  exists merged. unfold _translate_pdf. rewrite Eloop, Em.
  split; [reflexivity|]. split; [exact Hperm|]. split; [|exact Hnd].
  rewrite (Permutation_length Hperm), length_map, <- Hlen.
  apply page_loop_files in Eloop as [Hp Hd].
  cbn [initial_state pdf_files disk map app] in Hp, Hd.
  transitivity (length (map fst (disk st))); [now rewrite length_map|].
  now rewrite Hd, <- Hp.
Qed.

Lemma X13_merge_keeps_every_page_witness :
  exists st merged,
    _translate_pdf Example.models (Example.numbered_pages 3)
                   Example.output_dir = Ok (st, merged)
    /\ length merged = 3.
Proof.
  destruct (page_loop Example.models Example.output_dir 0
                      (Example.numbered_pages 3) initial_state [])
    as [[st h]|e] eqn:E; [|vm_compute in E; discriminate].
  destruct (@X13_merge_keeps_every_page Example.models Example.output_dir
              (Example.numbered_pages 3) st h E)
    as (merged & Hrun & _ & Hlen & _).
  exists st, merged. split; [exact Hrun | exact Hlen].
Defined.

Section WholeDocument.

Variable M : Models.
Variable output_dir : str.

Lemma original_kept (image : grid) (r : bool) (h : heap)
      (im orig : ref) (r' : bool) (h' : heap) :
  __translate_one_page M image r h = Ok ((im, orig, r'), h') ->
  nth orig h' [] = image.
Proof.
  rewrite translate_one_page_unfold.
  destruct (block_loop _ _ _ _ _) as [[r1 h1]|e] eqn:E; [|discriminate].
  intros E'; inv_ok E'. apply block_loop_frame in E as (_ & F & _).
  rewrite F by lia.
  replace (S (length h)) with (length (h ++ [image]))
    by (rewrite length_app; cbn; lia).
  apply nth_middle.
Qed.

Lemma translated_shape (image : grid) (r : bool) (h : heap)
      (im orig : ref) (r' : bool) (h' : heap) :
  __translate_one_page M image r h = Ok ((im, orig, r'), h') ->
  height (nth im h' []) = height image
  /\ width (nth im h' []) = width image.
Proof.
  rewrite translate_one_page_unfold.
  destruct (block_loop _ _ _ _ _) as [[r1 h1]|e] eqn:E; [|discriminate].
  intros E'; inv_ok E'.
  apply block_loop_pixels in E; [|rewrite !length_app; cbn; lia].
  replace (nth (length h) ((h ++ [image]) ++ [image]) []) with image in E
    by (rewrite <- app_assoc; cbn; now rewrite nth_middle).
  tauto.
Qed.

Lemma page_loop_total (images : list grid) :
  Forall (page_ok M) images ->
  forall (i : nat) (st : loop_state) (h : heap),
  exists st' h', page_loop M output_dir i images st h = Ok (st', h').
Proof.
  induction 1 as [|image images (Hpass & Hcols & Hblocks) _ IH];
    intros i st h; cbn [page_loop].
  - run_m. eauto.
  - unfold bind. destruct (reached_references st) eqn:Hr.
    + rewrite page_body_pass_through by assumption. apply IH.
    + rewrite page_body_translating by exact Hr.
      destruct (@translate_one_page_total M image false h Hblocks)
        as (r' & h' & E).
      rewrite E.
      pose proof (@original_kept image false h _ _ r' h' E) as Ho.
      pose proof (@translated_shape image false h _ _ r' h' E) as [Hh Hw].
      unfold is_empty. rewrite Ho, Hh, Hw.
      destruct Hpass as [Hrows _].
      apply Nat.eqb_neq in Hrows, Hcols. rewrite Hrows, Hcols.
      cbn [orb]. apply IH.
Qed.

Lemma page_loop_after_references (images : list grid) :
  forall (i : nat) (st st' : loop_state) (h h' : heap),
    page_loop M output_dir i images st h = Ok (st', h') ->
    reached_references st = true ->
    map snd (disk st') = map snd (disk st) ++ map PassThrough images
    /\ reached_references st' = true.
Proof.
  induction images as [|image images IH]; intros i st st' h h';
    cbn [page_loop map].
  - run_m. intros E Hr; inv_ok E. now rewrite app_nil_r.
  - unfold bind.
    destruct (page_body M output_dir st i image h) as [[st1 h1]|e] eqn:E1;
      [|discriminate].
    intros E2 Hr. unfold page_body in E1. rewrite Hr in E1.
    cbn [negb] in E1. destruct (height image =? 0); run_m; [discriminate|].
    destruct (resized_width_is_zero _ _); [discriminate|].
    inv_ok E1. apply IH in E2 as [Hd Hf]; [|reflexivity].
    cbn [disk] in Hd. rewrite Hd, map_app, <- app_assoc. auto.
Qed.

Lemma page_loop_kinds (images : list grid) :
  forall (i : nat) (st st' : loop_state) (h h' : heap),
    page_loop M output_dir i images st h = Ok (st', h') ->
    reached_references st = false ->
    exists translated,
      length translated <= length images
      /\ map snd (disk st')
         = map snd (disk st)
             ++ map (fun ot => SideBySide (fst ot) (snd ot))
                    (combine (firstn (length translated) images)
                             translated)
             ++ map PassThrough (skipn (length translated) images)
      /\ (length translated < length images ->
          reached_references st' = true).
Proof.
  induction images as [|image images IH]; intros i st st' h h';
    cbn [page_loop].
  - run_m. intros E Hr; inv_ok E. exists []. cbn.
    rewrite app_nil_r. repeat split; auto. lia.
  - unfold bind.
    destruct (page_body M output_dir st i image h) as [[st1 h1]|e] eqn:E1;
      [|discriminate].
    intros E2 Hr. rewrite page_body_translating in E1 by exact Hr.
    destruct (__translate_one_page M image false h)
      as [[[[im orig] r] h2]|e] eqn:Epage; [|discriminate].
    destruct (is_empty _ || is_empty _); [discriminate|].
    inv_ok E1. rewrite (@original_kept image false h im orig r h1 Epage) in E2.
    destruct r.
    + apply page_loop_after_references in E2 as [Hd Hf]; [|reflexivity].
      exists [nth im h1 []]. cbn [disk] in Hd.
      cbn [length firstn combine map skipn fst snd].
      rewrite Hd, map_app, <- app_assoc. cbn [map snd app].
      repeat split; auto. lia.
    + apply IH in E2 as (translated & Hlen & Hd & Hf); [|reflexivity].
      exists (nth im h1 [] :: translated). cbn [disk] in Hd.
      cbn [length firstn combine map skipn fst snd].
      rewrite Hd, map_app, <- !app_assoc. cbn [map snd app].
      split; [lia|]. split; [reflexivity|].
      intros Hlt. apply Hf. lia.
Qed.

Lemma page_body_stale (old : list (str * page_file)) (st : loop_state)
      (i : nat) (image : grid) (h : heap) :
  page_body M output_dir
            {| pdf_files := pdf_files st;
               reached_references := reached_references st;
               disk := old ++ disk st |} i image h
  = match page_body M output_dir st i image h with
    | Ok (st', h') =>
        Ok ({| pdf_files := pdf_files st';
               reached_references := reached_references st';
               disk := old ++ disk st' |}, h')
    | Raise e => Raise e
    end.
Proof.
  unfold page_body. cbn [pdf_files reached_references disk].
  destruct (reached_references st); cbn [negb].
  - destruct (height image =? 0); run_m; [reflexivity|].
    destruct (resized_width_is_zero _ _); [reflexivity|].
    cbn [pdf_files reached_references disk]. now rewrite app_assoc.
  - unfold bind at 1 2 5 6.
    destruct (__translate_one_page M image false h)
      as [[[[im orig] r] h']|e]; [|reflexivity].
    run_m. destruct (is_empty _ || is_empty _); [reflexivity|].
    cbn [pdf_files reached_references disk].
    now rewrite app_assoc.
Qed.

Lemma page_loop_stale (old : list (str * page_file))
      (images : list grid) :
  forall (i : nat) (st : loop_state) (h : heap),
    page_loop M output_dir i images
              {| pdf_files := pdf_files st;
                 reached_references := reached_references st;
                 disk := old ++ disk st |} h
    = match page_loop M output_dir i images st h with
      | Ok (st', h') =>
          Ok ({| pdf_files := pdf_files st';
                 reached_references := reached_references st';
                 disk := old ++ disk st' |}, h')
      | Raise e => Raise e
      end.
Proof.
  induction images as [|image images IH]; intros i st h; cbn [page_loop].
  - reflexivity.
  - unfold bind. rewrite page_body_stale.
    destruct (page_body M output_dir st i image h) as [[st1 h1]|e];
      [apply IH | reflexivity].
Qed.

End WholeDocument.

Lemma read_file_recent (old new : list (str * page_file)) (p : str) :
  In p (map fst new) -> read_file (old ++ new) p = read_file new p.
Proof.
  intros Hin. induction old as [|[q g] old IH]; cbn [app read_file];
    [reflexivity|].
  rewrite IH. destruct (read_file_in _ _ Hin) as [f ->]. reflexivity.
Qed.

Lemma merge_loop_recent (old new : list (str * page_file))
      (paths : list str) :
  (forall p, In p paths -> In p (map fst new)) ->
  forall acc,
    merge_loop (old ++ new) paths acc = merge_loop new paths acc.
Proof.
  induction paths as [|p paths IH]; intros Hin acc; cbn [merge_loop];
    [reflexivity|].
  rewrite read_file_recent by (apply Hin; now left).
  destruct (read_file new p); [|reflexivity].
  apply IH. intros q Hq. apply Hin. now right.
Qed.

(** X14. [_translate_pdf] runs to its end and returns one merged page
    per input page on every document whose page images have rows and
    columns and a resized width [int(1400 / height * width)] that is not
    0, whose title blocks all have a recognised line and whose other
    blocks all have their bounding box within the page. *)
Theorem X14_well_formed_document_is_translated (M : Models)
        (output_dir : str) (images : list grid) :
  Forall (page_ok M) images ->
  exists st merged,
    _translate_pdf M images output_dir = Ok (st, merged)
    /\ length merged = length images
    /\ length (disk st) = length images.
Proof.
  intros Hok.
  destruct (@page_loop_total M output_dir images Hok 0 initial_state [])
    as (st & h & Eloop).
  destruct (@merge_after_loop M output_dir images st h Eloop)
    as (merged & Em & Hperm & _ & Hlen).
  exists st, merged. unfold _translate_pdf. rewrite Eloop, Em.
  split; [reflexivity|].
  assert (Hdisk : length (disk st) = length images).
  { apply page_loop_files in Eloop as [Hp Hd].
    cbn [initial_state pdf_files disk map app] in Hp, Hd.
    transitivity (length (map fst (disk st))); [now rewrite length_map|].
    now rewrite Hd, <- Hp. }
  split; [|exact Hdisk].
  now rewrite (Permutation_length Hperm), length_map.
Qed.

Lemma X14_well_formed_document_is_translated_witness :
  exists st merged,
    _translate_pdf Example.models
                   [Example.tag 2; Example.tag 1; Example.tag 2]
                   Example.output_dir = Ok (st, merged)
    /\ length merged = 3.
Proof.
  destruct (@X14_well_formed_document_is_translated Example.models
              Example.output_dir
              [Example.tag 2; Example.tag 1; Example.tag 2])
    as (st & merged & Hrun & Hlen & _).
  - repeat constructor; vm_compute; intuition discriminate.
  - exists st, merged. split; [exact Hrun | exact Hlen].
Defined.

(** X15. The files written for a document are, in page order, first
    side-by-side pages and then pass-through pages, never the other way
    round; the original panel of each side-by-side page and the image
    of each pass-through page are the input page at that position; and
    if any page was passed through, the flag is set at the end. *)
Theorem X15_translated_pages_then_pass_through (M : Models)
        (output_dir : str) (images : list grid) (st : loop_state)
        (merged : list page_file) :
  _translate_pdf M images output_dir = Ok (st, merged) ->
  exists translated,
    length translated <= length images
    /\ map snd (disk st)
       = map (fun ot => SideBySide (fst ot) (snd ot))
             (combine (firstn (length translated) images) translated)
           ++ map PassThrough (skipn (length translated) images)
    /\ (length translated < length images ->
        reached_references st = true).
Proof.
  unfold _translate_pdf.
  destruct (page_loop M output_dir 0 images initial_state [])
    as [[st0 h0]|e] eqn:Eloop; [|discriminate].
  destruct (__merge_pdfs (disk st0) (pdf_files st0)); [|discriminate].
  intros E; inv_ok E.
  apply page_loop_kinds in Eloop as (translated & Hlen & Hd & Hf);
    [|reflexivity].
  exists translated. cbn [initial_state disk map app] in Hd. auto.
Qed.

Lemma X15_translated_pages_then_pass_through_witness :
  exists st merged,
    _translate_pdf Example.models
                   [Example.tag 2; Example.tag 1; Example.tag 2]
                   Example.output_dir = Ok (st, merged)
    /\ exists t0 t1,
        map snd (disk st)
        = [SideBySide (Example.tag 2) t0; SideBySide (Example.tag 1) t1;
           PassThrough (Example.tag 2)].
Proof.
  destruct (_translate_pdf Example.models
              [Example.tag 2; Example.tag 1; Example.tag 2]
              Example.output_dir) as [[st merged]|e] eqn:E;
    [|vm_compute in E; discriminate].
  exists st, merged. split; [reflexivity|].
  destruct (@X15_translated_pages_then_pass_through Example.models
              Example.output_dir _ st merged E)
    as (translated & _ & Hd & _).
  vm_compute in E. inv_ok E. eexists. eexists. reflexivity.
Defined.

(** X16. Page files that an earlier run has left in the output
    directory do not change anything: the loop writes the same files
    after them and ends in the same flag and heap, and the merge, which
    reads the paths of this run only and finds the file written last
    under each, returns the same document. *)
Theorem X16_stale_files_are_ignored (M : Models) (output_dir : str)
        (images : list grid) (old : list (str * page_file))
        (st : loop_state) (h : heap) :
  page_loop M output_dir 0 images initial_state [] = Ok (st, h) ->
  exists st',
    page_loop M output_dir 0 images
              {| pdf_files := []; reached_references := false;
                 disk := old |} []
    = Ok (st', h)
    /\ pdf_files st' = pdf_files st
    /\ reached_references st' = reached_references st
    /\ disk st' = old ++ disk st
    /\ __merge_pdfs (disk st') (pdf_files st')
       = __merge_pdfs (disk st) (pdf_files st).
Proof.
  intros Eloop.
  pose proof (@page_loop_stale M output_dir old images 0 initial_state [])
    as Hstale.
  cbn [initial_state pdf_files reached_references disk] in Hstale.
  rewrite app_nil_r in Hstale.
  change (page_loop M output_dir 0 images
            {| pdf_files := []; reached_references := false; disk := [] |}
            [])
    with (page_loop M output_dir 0 images initial_state []) in Hstale.
  rewrite Eloop in Hstale.
  eexists. split; [exact Hstale|].
  cbn [pdf_files reached_references disk]. repeat split.
  unfold __merge_pdfs. apply merge_loop_recent.
  intros p Hin. apply page_loop_files in Eloop as [Hp Hd].
  cbn [initial_state pdf_files disk map app] in Hp, Hd.
  rewrite Hd, <- Hp.
  eapply Permutation_in; [symmetry; apply sorted_perm | exact Hin].
Qed.

Lemma X16_stale_files_are_ignored_witness :
  exists st',
    page_loop Example.models Example.output_dir 0
              [Example.tag 5; Example.tag 6]
              {| pdf_files := []; reached_references := false;
                 disk := [(output_path Example.output_dir 0,
                           PassThrough (Example.tag 7))] |} []
    = Ok (st', [Example.tag 5; Example.tag 5; Example.tag 6; Example.tag 6])
    /\ __merge_pdfs (disk st') (pdf_files st')
       = Ok [SideBySide (Example.tag 5) (Example.tag 5);
             SideBySide (Example.tag 6) (Example.tag 6)].
Proof.
  destruct (page_loop Example.models Example.output_dir 0
                      [Example.tag 5; Example.tag 6] initial_state [])
    as [[st h]|e] eqn:E; [|vm_compute in E; discriminate].
  destruct (@X16_stale_files_are_ignored Example.models
              Example.output_dir [Example.tag 5; Example.tag 6]
              [(output_path Example.output_dir 0,
                PassThrough (Example.tag 7))] st h E)
    as (st' & Hrun & _ & _ & _ & Hmerge).
  exists st'. vm_compute in E. inv_ok E. split; [exact Hrun|].
  rewrite Hmerge. vm_compute. reflexivity.
Defined.

(* ================================================================== *)
(** * Boxes that do not fit the page *)

Lemma setitem_overflow (a : grid) (x0 y0 x1 y1 : Z) (blk : grid) :
  (0 <= x0 <= x1)%Z -> (0 <= y0 <= y1)%Z ->
  (Z.of_nat (width a) < x1 /\ 1 < x1 - x0
   \/ Z.of_nat (height a) < y1 /\ 1 < y1 - y0)%Z ->
  setitem a y0 y1 x0 x1 (Z.to_nat (y1 - y0)) (Z.to_nat (x1 - x0)) blk
  = Raise ValueError.
Proof.
  intros Hx Hy Hover. unfold setitem.
  assert (Hsb : forall n k, (0 <= k)%Z ->
                  slice_bound n k = Nat.min (Z.to_nat k) n).
  { intros n k Hk. unfold slice_bound.
    destruct (Z.ltb_spec k 0); lia. }
  rewrite !Hsb by lia.
  destruct Hover as [[Hw Hb]|[Hh Hb]].
  - replace ((Z.to_nat (x1 - x0)
              =? Nat.min (Z.to_nat x1) (width a)
                 - Nat.min (Z.to_nat x0) (width a))
             || (Z.to_nat (x1 - x0) =? 1)) with false.
    + now rewrite andb_false_r.
    + symmetry. apply orb_false_iff. split; apply Nat.eqb_neq; lia.
  - replace ((Z.to_nat (y1 - y0)
              =? Nat.min (Z.to_nat y1) (height a)
                 - Nat.min (Z.to_nat y0) (height a))
             || (Z.to_nat (y1 - y0) =? 1)) with false.
    + reflexivity.
    + symmetry. apply orb_false_iff. split; apply Nat.eqb_neq; lia.
Qed.

(** X17. A body block that would be drawn (two or more lines, the
    translation passes the gate) raises [ValueError] instead when its
    box has a negative width or height, or is more than one pixel wide
    (high) and reaches beyond the right (bottom) edge of the page. *)
Theorem X17_box_outside_the_page_raises (M : Models) (page : ref)
        (r : bool) (line : block) (h : heap) (x0 y0 x1 y1 : Z) :
  type line <> PyStr.lit "title" ->
  1 < length (ocr_model M (img line)) ->
  quality_gate_rejects (translated_text_of M line) = false ->
  bbox line = (x0, y0, x1, y1) ->
  (x1 < x0 \/ y1 < y0
   \/ (0 <= x0 <= x1 /\ 0 <= y0 <= y1
       /\ (Z.of_nat (width (nth page h [])) < x1 /\ 1 < x1 - x0
           \/ Z.of_nat (height (nth page h [])) < y1 /\ 1 < y1 - y0)))%Z ->
  block_body M page r line h = Raise ValueError.
Proof.
  intros Hne Hlines Hgate Hbbox Hbad.
  unfold block_body. rewrite (@eqb_title_false line Hne). cbn [negb].
  rewrite length_map.
  destruct (Nat.ltb_spec 1 (length (ocr_model M (img line)))) as [_|Hle];
    [|lia].
  unfold translated_text_of in Hgate. rewrite Hgate, Hbbox. run_m.
  destruct Hbad as [Hw|[Hh|(Hx & Hy & Hover)]].
  - unfold render_block. destruct (Z.ltb_spec (x1 - x0) 0); [|lia].
    reflexivity.
  - unfold render_block. destruct (Z.ltb_spec (y1 - y0) 0); [|lia].
    now rewrite orb_true_r.
  - rewrite render_block_within by lia.
    now rewrite setitem_overflow.
Qed.

Lemma X17_box_outside_the_page_raises_witness :
  block_body Example.models 0 false
             {| type := PyStr.lit "text"; bbox := (0, 0, 3, 1)%Z;
                img := Example.body_crop |}
             [Example.tag 2]
  = Raise ValueError.
Proof.
  apply (@X17_box_outside_the_page_raises Example.models 0 false
           {| type := PyStr.lit "text"; bbox := (0, 0, 3, 1)%Z;
              img := Example.body_crop |}
           [Example.tag 2] 0%Z 0%Z 3%Z 1%Z).
  - vm_compute. discriminate.
  - vm_compute. repeat constructor.
  - vm_compute. reflexivity.
  - reflexivity.
  - right. right. vm_compute. intuition (try discriminate; auto).
Defined.
